(** * nats-pocketbase-sync: a shallow embedding of the reconciliation pipeline

    The development follows the packages of the repository:
    - [models] (internal/models/pocketbase.go): role and user records, role
      name normalisation and the permission formatters;
    - [generator]: [GenerateConfig];
    - [filemanager]: [HasConfigChanged], [WriteConfigFile],
      [CleanupOldBackups] over an explicit file-system state;
    - [nats] (internal/nats/reloader.go): [ReloadConfig] over an explicit
      clock;
    - [main] and [sync] (cmd/sync/main.go): the scheduling loop over a list
      of events, and [runSync] on a world made of the states above.

    Go strings are byte strings and are modelled by [string] (a list of
    8-bit [ascii]); Go's [<] on strings is the bytewise lexicographic order,
    which is [String.ltb]. *)

From Stdlib Require Import ZArith Lia Ascii String List Permutation Sorted.
From stdpp Require Import gmap strings list fin_maps.

Local Open Scope string_scope.

(** ** Results of fallible Go calls: a value or an [error] message. *)

Inductive result (A : Type) : Type :=
| Ok (a : A)
| Err (e : string).
Arguments Ok {A} a.
Arguments Err {A} e.

Definition is_err {A} (r : result A) : bool :=
  match r with Ok _ => false | Err _ => true end.

(** ** Package strings (the part the repository calls)

    [strings.ToUpper] and [strings.ToLower] are modelled on their ASCII
    fragment: the bytes of ['a'..'z'] (resp. ['A'..'Z']) are mapped, every
    other byte is kept.  Go agrees with this on every ASCII string. *)

Definition byte_in (lo hi : N) (c : ascii) : bool :=
  ((lo <=? N_of_ascii c) && (N_of_ascii c <=? hi))%N.

Definition upper_byte (c : ascii) : ascii :=
  if byte_in 97 122 c then ascii_of_N (N_of_ascii c - 32) else c.

Definition lower_byte (c : ascii) : ascii :=
  if byte_in 65 90 c then ascii_of_N (N_of_ascii c + 32) else c.

Fixpoint map_bytes (f : ascii -> ascii) (s : string) : string :=
  match s with
  | EmptyString => EmptyString
  | String c r => String (f c) (map_bytes f r)
  end.

Fixpoint filter_bytes (p : ascii -> bool) (s : string) : string :=
  match s with
  | EmptyString => EmptyString
  | String c r => if p c then String c (filter_bytes p r) else filter_bytes p r
  end.

Definition strings_ToUpper : string -> string := map_bytes upper_byte.
Definition strings_ToLower : string -> string := map_bytes lower_byte.

(** [strings.ReplaceAll(name, " ", "_")]: both patterns are one byte long. *)
Definition replace_space (c : ascii) : ascii :=
  if Ascii.eqb c " "%char then "_"%char else c.
Definition strings_ReplaceAll_space_underscore : string -> string :=
  map_bytes replace_space.

(** The last byte of a string, if it has one. *)
Fixpoint last_byte (s : string) : option ascii :=
  match s with
  | EmptyString => None
  | String c EmptyString => Some c
  | String _ r => last_byte r
  end.

(** The double quote byte, [0x22]. *)
Definition dq : string := String (ascii_of_N 34) EmptyString.

Module models.

(** ** internal/models/pocketbase.go *)

(** [MqttUser]; the collection and time stamp fields are never read by the
    pipeline and are left out. *)
Record MqttUser : Type := {
  user_ID : string;
  Username : string;
  Password : string;
  RoleID : string;
  Active : bool
}.

(** [MqttRole]; the two permission fields are [json.RawMessage], raw bytes. *)
Record MqttRole : Type := {
  role_ID : string;
  Name : string;
  PublishPermissions : string;
  SubscribePermissions : string
}.

(** The records handed to the template, as [GenerateConfig] fills them. *)
Record NatsRole : Type := {
  nr_Name : string;
  nr_PublishPermissions : string;
  nr_SubscribePermissions : string
}.

Record NatsUser : Type := {
  nu_Username : string;
  nu_Password : string;
  nu_RoleName : string;
  nu_IsLast : bool
}.

Record NatsConfigData : Type := {
  DefaultPublish : string;
  DefaultSubscribe : string;
  Roles : list NatsRole;
  Users : list NatsUser
}.

(** [NormalizeRoleName]: upper-case, spaces to underscores, then keep only
    [A-Z], [0-9] and [_]. *)
Definition role_char_ok (c : ascii) : bool :=
  byte_in 65 90 c || byte_in 48 57 c || Ascii.eqb c "_"%char.

Definition NormalizeRoleName (r : MqttRole) : string :=
  let name := strings_ToUpper (Name r) in
  let name := strings_ReplaceAll_space_underscore name in
  filter_bytes role_char_ok name.

Section Permissions.

(** [json.Unmarshal(raw, &permissions)] for [permissions []string] is
    the standard library's decoder; it is a parameter of the model. *)
Variable json_Unmarshal : string -> result (list string).

(** [GetPublishPermissions] / [GetSubscribePermissions]: an empty raw
    message is the nil slice, anything else goes to the decoder. *)
Definition GetPermissions (raw : string) : result (list string) :=
  if (String.length raw =? 0)%nat then Ok []
  else match json_Unmarshal raw with
       | Err e => Err e
       | Ok permissions => Ok permissions
       end.

Definition GetPublishPermissions (r : MqttRole) : result (list string) :=
  GetPermissions (PublishPermissions r).
Definition GetSubscribePermissions (r : MqttRole) : result (list string) :=
  GetPermissions (SubscribePermissions r).

(** The loop that writes the bracketed list: every element quoted, a
    [", "] after each but the last. *)
Fixpoint write_perms (permissions : list string) : string :=
  match permissions with
  | [] => EmptyString
  | [perm] => dq ++ perm ++ dq
  | perm :: rest => (dq ++ perm ++ dq) ++ ", " ++ write_perms rest
  end.

Definition format_permissions (got : result (list string)) : string :=
  match got with
  | Err _ => dq ++ dq
  | Ok permissions =>
      match permissions with
      | [] => dq ++ dq
      | [p] => dq ++ p ++ dq
      | _ => "[" ++ write_perms permissions ++ "]"
      end
  end.

Definition FormatPublishPermissions (r : MqttRole) : string :=
  format_permissions (GetPublishPermissions r).
Definition FormatSubscribePermissions (r : MqttRole) : string :=
  format_permissions (GetSubscribePermissions r).

End Permissions.

End models.

(** ** Package sort (the part the repository calls)

    [sort.Slice(data, less)] on a slice of at most 12 elements runs
    [insertionSortLessFunc]:
    [for i := a+1; i < b; i++ { for j := i; j > a && less(j, j-1); j-- { swap(j, j-1) } }].
    [sift x done] moves [x] to the left past the already placed elements,
    [done] being the placed prefix in reverse (its head is [data[j-1]]).
    On longer slices [sort.Slice] returns some permutation that is sorted
    for [less]; [sorted_perm_unique] below shows that there is only one
    when no two elements tie. *)

Section Sort.
Context {A : Type}.
Variable less : A -> A -> bool.

Fixpoint sift (x : A) (done : list A) : list A :=
  match done with
  | [] => [x]
  | y :: r => if less x y then y :: sift x r else x :: y :: r
  end.

Definition sort_Slice (data : list A) : list A :=
  rev (fold_left (fun done x => sift x done) data []).

End Sort.


Module generator.
Import models.

(** ** internal/generator: [GenerateConfig]

    [models.FormatDefaultPermissions] and [models.FormatConfigFile] (the
    template renderer) are declared in a file of package models that is
    not part of the sources at hand; they are parameters, as is the type of
    the two [interface{}] default values. *)

Section Generate.

Variable json_Unmarshal : string -> result (list string).
Variable iface : Type.
Variable FormatDefaultPermissions : iface -> iface -> string * string.
Variable FormatConfigFile : NatsConfigData -> result string.

Record Generator : Type := {
  defaultPublish : iface;
  defaultSubscribe : iface
}.

(** [roleMap[role.ID] = role] for each role in turn: a later role with the
    same identifier overwrites an earlier one. *)
Definition build_roleMap (roles : list MqttRole) : gmap string MqttRole :=
  fold_left (fun roleMap role => <[role_ID role := role]> roleMap) roles ∅.

(** Body of the loop "Add roles". *)
Definition add_role (role : MqttRole) : NatsRole :=
  let pubPerms := FormatPublishPermissions json_Unmarshal role in
  let subPerms := FormatSubscribePermissions json_Unmarshal role in
  {| nr_Name := NormalizeRoleName role;
     nr_PublishPermissions := pubPerms;
     nr_SubscribePermissions := subPerms |}.

(** Body of the loop "Add users" at index [i] of a slice of [n] users:
    [None] is the [continue] of an unknown role identifier. *)
Definition add_user (roleMap : gmap string MqttRole) (n : nat)
    (i : nat) (user : MqttUser) : option NatsUser :=
  match roleMap !! RoleID user with
  | None => None
  | Some role =>
      Some {| nu_Username := dq ++ Username user ++ dq;
              nu_Password := Password user;
              nu_RoleName := NormalizeRoleName role;
              nu_IsLast := (Z.of_nat i =? Z.of_nat n - 1)%Z |}
  end.

Definition less_role (a b : NatsRole) : bool :=
  String.ltb (nr_Name a) (nr_Name b).

Definition less_user (a b : NatsUser) : bool :=
  String.ltb (strings_ToLower (nu_Username a)) (strings_ToLower (nu_Username b)).

(** The loop "Update IsLast flag based on new order". *)
Definition set_IsLast (n : nat) (i : nat) (u : NatsUser) : NatsUser :=
  {| nu_Username := nu_Username u;
     nu_Password := nu_Password u;
     nu_RoleName := nu_RoleName u;
     nu_IsLast := (Z.of_nat i =? Z.of_nat n - 1)%Z |}.

Definition update_IsLast (users : list NatsUser) : list NatsUser :=
  imap (set_IsLast (length users)) users.

(** [configData] as it stands when it is handed to [FormatConfigFile]. *)
Definition configData (g : Generator) (roles : list MqttRole)
    (users : list MqttUser) : NatsConfigData :=
  let roleMap := build_roleMap roles in
  let '(defaultPublishStr, defaultSubscribeStr) :=
    FormatDefaultPermissions (defaultPublish g) (defaultSubscribe g) in
  let Roles0 := map add_role roles in
  let Users0 := omap id (imap (add_user roleMap (length users)) users) in
  let Roles1 := sort_Slice less_role Roles0 in
  let Users1 := sort_Slice less_user Users0 in
  {| DefaultPublish := defaultPublishStr;
     DefaultSubscribe := defaultSubscribeStr;
     Roles := Roles1;
     Users := update_IsLast Users1 |}.

Definition GenerateConfig (g : Generator) (roles : list MqttRole)
    (users : list MqttUser) : result string :=
  match FormatConfigFile (configData g roles users) with
  | Err err => Err ("failed to format NATS config: " ++ err)
  | Ok config => Ok config
  end.

End Generate.

(** *** Notions used to state the properties of the generator *)

(** Two template users are alike when they differ at most in [IsLast]. *)
Definition alike (a b : NatsUser) : Prop :=
  nu_Username a = nu_Username b /\ nu_Password a = nu_Password b /\
  nu_RoleName a = nu_RoleName b.

(** What a user contributes to the template, [IsLast] left aside. *)
Definition entry (roleMap : gmap string MqttRole) (user : MqttUser)
    : option NatsUser :=
  match roleMap !! RoleID user with
  | None => None
  | Some role =>
      Some {| nu_Username := dq ++ Username user ++ dq;
              nu_Password := Password user;
              nu_RoleName := NormalizeRoleName role;
              nu_IsLast := false |}
  end.

(** A user with its [Active] flag set to [b]. *)
Definition set_Active (u : MqttUser) (b : bool) : MqttUser :=
  {| user_ID := user_ID u; Username := Username u; Password := Password u;
     RoleID := RoleID u; Active := b |}.

(** A role with each permission field the decoder rejects replaced by the
    empty raw message. *)
Definition degrade_raw (json_Unmarshal : string -> result (list string))
    (raw : string) : string :=
  match json_Unmarshal raw with
  | Err _ => EmptyString
  | Ok _ => raw
  end.

Definition degrade (json_Unmarshal : string -> result (list string))
    (r : MqttRole) : MqttRole :=
  {| role_ID := role_ID r; Name := Name r;
     PublishPermissions := degrade_raw json_Unmarshal (PublishPermissions r);
     SubscribePermissions := degrade_raw json_Unmarshal (SubscribePermissions r) |}.

(** Roles that agree on identifier, name and formatted permissions. *)
Definition same_role (json_Unmarshal : string -> result (list string))
    (r r' : MqttRole) : Prop :=
  role_ID r = role_ID r' /\ Name r = Name r' /\
  add_role json_Unmarshal r = add_role json_Unmarshal r'.

(** The users of the template: the entries of the users whose role is
    known, sorted, [IsLast] set on the last one. *)
Definition canonical_users (roles : list MqttRole) (users : list MqttUser)
    : list NatsUser :=
  update_IsLast
    (sort_Slice less_user (omap (entry (build_roleMap roles)) users)).

End generator.


Module sha256.

(** ** crypto/sha256 and encoding/hex, as [calculateHash] uses them

    32-bit words are [Z] reduced modulo [2^32]. *)

Local Open Scope Z_scope.

Definition w32 (x : Z) : Z := x mod 4294967296.
Definition add32 (x y : Z) : Z := w32 (x + y).
Definition rotr (n x : Z) : Z :=
  Z.lor (Z.shiftr x n) (w32 (Z.shiftl x (32 - n))).
Definition not32 (x : Z) : Z := 4294967295 - x.

Definition Ch (x y z : Z) : Z := Z.lxor (Z.land x y) (Z.land (not32 x) z).
Definition Maj (x y z : Z) : Z :=
  Z.lxor (Z.lxor (Z.land x y) (Z.land x z)) (Z.land y z).
Definition bsig0 (x : Z) : Z := Z.lxor (Z.lxor (rotr 2 x) (rotr 13 x)) (rotr 22 x).
Definition bsig1 (x : Z) : Z := Z.lxor (Z.lxor (rotr 6 x) (rotr 11 x)) (rotr 25 x).
Definition ssig0 (x : Z) : Z := Z.lxor (Z.lxor (rotr 7 x) (rotr 18 x)) (Z.shiftr x 3).
Definition ssig1 (x : Z) : Z := Z.lxor (Z.lxor (rotr 17 x) (rotr 19 x)) (Z.shiftr x 10).

Definition K : list Z :=
  [1116352408; 1899447441; 3049323471; 3921009573; 961987163; 1508970993;
   2453635748; 2870763221; 3624381080; 310598401; 607225278; 1426881987;
   1925078388; 2162078206; 2614888103; 3248222580; 3835390401; 4022224774;
   264347078; 604807628; 770255983; 1249150122; 1555081692; 1996064986;
   2554220882; 2821834349; 2952996808; 3210313671; 3336571891; 3584528711;
   113926993; 338241895; 666307205; 773529912; 1294757372; 1396182291;
   1695183700; 1986661051; 2177026350; 2456956037; 2730485921; 2820302411;
   3259730800; 3345764771; 3516065817; 3600352804; 4094571909; 275423344;
   430227734; 506948616; 659060556; 883997877; 958139571; 1322822218;
   1537002063; 1747873779; 1955562222; 2024104815; 2227730452; 2361852424;
   2428436474; 2756734187; 3204031479; 3329325298].

Definition H0 : list Z :=
  [1779033703; 3144134277; 1013904242; 2773480762;
   1359893119; 2600822924; 528734635; 1541459225].

Definition bytes_of (s : string) : list Z :=
  map (fun c => Z.of_N (N_of_ascii c)) (list_ascii_of_string s).

(** Big-endian bytes of [x], [n] of them. *)
Fixpoint be_bytes (n : nat) (x : Z) : list Z :=
  match n with
  | O => []
  | S n' => (Z.shiftr x (8 * Z.of_nat n')) mod 256 :: be_bytes n' x
  end.

(** Padding: [0x80], zeros up to 56 modulo 64, the bit length on 8 bytes. *)
Definition pad (msg : list Z) : list Z :=
  let len := Z.of_nat (length msg) in
  let zeros := Z.to_nat ((55 - len) mod 64) in
  msg ++ [128] ++ repeat 0 zeros ++ be_bytes 8 (8 * len).

Fixpoint words (fuel : nat) (bs : list Z) : list Z :=
  match fuel, bs with
  | S f, b0 :: b1 :: b2 :: b3 :: r =>
      (b0 * 16777216 + b1 * 65536 + b2 * 256 + b3) :: words f r
  | _, _ => []
  end.

Fixpoint blocks (fuel : nat) (ws : list Z) : list (list Z) :=
  match fuel, ws with
  | S f, _ :: _ => firstn 16 ws :: blocks f (skipn 16 ws)
  | _, _ => []
  end.

(** Message schedule; [recent] holds the words so far, latest first. *)
Fixpoint schedule (n : nat) (recent : list Z) : list Z :=
  match n with
  | O => recent
  | S n' =>
      let w := add32 (add32 (ssig1 (nth 1 recent 0)) (nth 6 recent 0))
                     (add32 (ssig0 (nth 14 recent 0)) (nth 15 recent 0)) in
      schedule n' (w :: recent)
  end.

Definition round (st : list Z) (kw : Z * Z) : list Z :=
  match st with
  | [a; b; c; d; e; f; g; h] =>
      let t1 := add32 (add32 (add32 h (bsig1 e)) (add32 (Ch e f g) (fst kw))) (snd kw) in
      let t2 := add32 (bsig0 a) (Maj a b c) in
      [add32 t1 t2; a; b; c; add32 d t1; e; f; g]
  | _ => st
  end.

Definition compress (h : list Z) (block : list Z) : list Z :=
  let w := rev (schedule 48 (rev block)) in
  let st := fold_left round (combine K w) h in
  map (fun p => add32 (fst p) (snd p)) (combine h st).

Definition Sum256 (s : string) : list Z :=
  let p := pad (bytes_of s) in
  let ws := words (length p) p in
  let h := fold_left compress (blocks (length ws) ws) H0 in
  flat_map (be_bytes 4) h.

Definition hexdigit (n : Z) : ascii :=
  ascii_of_N (Z.to_N (if n <? 10 then 48 + n else 87 + n)).

Fixpoint hex_EncodeToString (bs : list Z) : string :=
  match bs with
  | [] => EmptyString
  | b :: r => String (hexdigit (b / 16)) (String (hexdigit (b mod 16)) (hex_EncodeToString r))
  end.

End sha256.


Module gotime.

(** ** Package time (the part the repository calls)

    An instant ([time.Time]) is a number of nanoseconds relative to the Unix
    epoch; a [time.Duration] is an [int64] count of nanoseconds, and
    [Time.Sub] saturates at the two ends of that range. *)

Local Open Scope Z_scope.

Definition minDuration : Z := - 9223372036854775808.
Definition maxDuration : Z := 9223372036854775807.

Definition Nanosecond : Z := 1.
Definition Second : Z := 1000000000.
Definition Hour : Z := 3600 * Second.

(** The zero [time.Time]: January 1 of year 1, 00:00 UTC. *)
Definition zeroTime : Z := - 62135596800 * Second.

Definition Sub (t u : Z) : Z :=
  let d := t - u in
  if d <? minDuration then minDuration
  else if maxDuration <? d then maxDuration
  else d.

(** [time.Since(t)] is [time.Now().Sub(t)]; [now] is the clock reading. *)
Definition Since (now t : Z) : Z := Sub now t.

End gotime.

Module filepath.

(** ** Package path/filepath (the part the repository calls)

    Paths are byte strings with ["/"] as separator.  [Join dir name] puts
    the separator between its arguments and [Dir] cuts the last element
    off; the lexical clean-up both do on top of that is not modelled. *)

Definition sep : ascii := "/"%char.

Definition Join (dir name : string) : string := dir ++ String sep name.

(** [cut_last s] is [Some d] when [s] holds a separator, [d] being what
    stands before the last one. *)
Fixpoint cut_last (s : string) : option string :=
  match s with
  | EmptyString => None
  | String c r =>
      match cut_last r with
      | Some d => Some (String c d)
      | None => if Ascii.eqb c sep then Some EmptyString else None
      end
  end.

Definition Dir (path : string) : string :=
  match cut_last path with
  | None => "."
  | Some EmptyString => "/"
  | Some d => d
  end.

End filepath.


Module filemanager.

(** ** internal/filemanager

    The file system is a finite map from paths to the contents of the
    regular files ([gmap string string]); directories other than the backup
    directory are not represented.  Each operation takes the errors the
    operating system injects as an argument: [None] lets the call behave
    as the file system dictates, [Some e] makes it fail with [e], an error
    other than "does not exist". *)

Record FileManager : Type := {
  configFile : string;
  backupDir : string;
  lastContentHash : string
}.

Definition NewFileManager (configFile backupDir : string) : FileManager :=
  {| configFile := configFile; backupDir := backupDir;
     lastContentHash := EmptyString |}.

Definition set_lastContentHash (fm : FileManager) (h : string) : FileManager :=
  {| configFile := configFile fm; backupDir := backupDir fm;
     lastContentHash := h |}.

Definition calculateHash (content : string) : string :=
  sha256.hex_EncodeToString (sha256.Sum256 content).

(** *** The system calls *)

Inductive stat_result : Type :=
| StatOk (size : Z)
| StatNotExist
| StatErr (e : string).

Definition os_Stat (fault : option string) (fs : gmap string string)
    (path : string) : stat_result :=
  match fault with
  | Some e => StatErr e
  | None =>
      match fs !! path with
      | None => StatNotExist
      | Some c => StatOk (Z.of_nat (String.length c))
      end
  end.

Definition os_ReadFile (fault : option string) (fs : gmap string string)
    (path : string) : result string :=
  match fault with
  | Some e => Err e
  | None =>
      match fs !! path with
      | None => Err "no such file or directory"
      | Some c => Ok c
      end
  end.

Definition os_Rename (fault : option string) (oldpath newpath : string)
    (fs : gmap string string) : result (gmap string string) :=
  match fault with
  | Some e => Err e
  | None =>
      match fs !! oldpath with
      | None => Err "no such file or directory"
      | Some c => Ok (<[newpath := c]> (delete oldpath fs))
      end
  end.

(** *** HasConfigChanged *)

Record check_faults : Type := {
  stat_fault : option string;
  read_fault : option string
}.

Definition HasConfigChanged (flt : check_faults) (fs : gmap string string)
    (fm : FileManager) (content : string) : FileManager * result bool :=
  let contentHash := calculateHash content in
  if String.eqb contentHash (lastContentHash fm) then (fm, Ok false)
  else
    match os_Stat (stat_fault flt) fs (configFile fm) with
    | StatNotExist => (set_lastContentHash fm contentHash, Ok true)
    | StatErr err => (fm, Err ("failed to stat config file: " ++ err))
    | StatOk size =>
        if (size =? 0)%Z then (set_lastContentHash fm contentHash, Ok true)
        else
          match os_ReadFile (read_fault flt) fs (configFile fm) with
          | Err err => (fm, Err ("failed to read current config file: " ++ err))
          | Ok currentContent =>
              let currentHash := calculateHash currentContent in
              let hasChanged := negb (String.eqb currentHash contentHash) in
              (set_lastContentHash fm contentHash, Ok hasChanged)
          end
    end.

(** *** WriteConfigFile and backupCurrentConfig

    [temp_rand] is the random part [os.CreateTemp] puts in place of the
    [*] of its pattern ([Err e]: the creation fails with [e]); a write or copy that
    fails does so after [n] bytes. *)

Record backup_faults : Type := {
  bstat_fault : option string;
  mkdir_fault : option string;
  open_fault : option string;
  create_fault : option string;
  copy_fault : option (nat * string);
  timestamp : string
}.

Record write_faults : Type := {
  temp_rand : result string;
  write_fault : option (nat * string);
  close_fault : option string;
  backup_flt : backup_faults;
  rename_fault : option string;
  chmod_fault : option string
}.

Definition backupCurrentConfig (flt : backup_faults) (fm : FileManager)
    (fs : gmap string string) : gmap string string * result unit :=
  match os_Stat (bstat_fault flt) fs (configFile fm) with
  | StatNotExist => (fs, Ok tt)
  | _ =>
      match mkdir_fault flt with
      | Some e => (fs, Err ("failed to create backup directory: " ++ e))
      | None =>
          let backupFilename :=
            filepath.Join (backupDir fm)
              ("nats-config-" ++ timestamp flt ++ ".conf") in
          match os_ReadFile (open_fault flt) fs (configFile fm) with
          | Err e => (fs, Err ("failed to open source file: " ++ e))
          | Ok _ =>
              match create_fault flt with
              | Some e => (fs, Err ("failed to create backup file: " ++ e))
              | None =>
                  (* os.Create truncates; io.Copy then reads the source *)
                  let fs1 := <[backupFilename := EmptyString]> fs in
                  let src := default EmptyString (fs1 !! configFile fm) in
                  match copy_fault flt with
                  | Some (n, e) =>
                      (<[backupFilename := String.substring 0 n src]> fs1,
                       Err ("failed to copy file contents: " ++ e))
                  | None => (<[backupFilename := src]> fs1, Ok tt)
                  end
              end
          end
      end
  end.

(** The deferred function: the file is closed, and removed if [os.Stat]
    still finds it. *)
Definition cleanup_temp (tempFilePath : string) (fs : gmap string string)
    : gmap string string :=
  match os_Stat None fs tempFilePath with
  | StatOk _ => delete tempFilePath fs
  | _ => fs
  end.

Definition WriteConfigFile (flt : write_faults) (fm : FileManager)
    (fs : gmap string string) (content : string)
    : gmap string string * result unit :=
  let dir := filepath.Dir (configFile fm) in
  match temp_rand flt with
  | Err e => (fs, Err ("failed to create temp file: " ++ e))
  | Ok r =>
      let tempFilePath := filepath.Join dir ("nats-config-" ++ r ++ ".tmp") in
      match fs !! tempFilePath with
      | Some _ => (fs, Err "failed to create temp file: file exists")
      | None =>
          let fs1 := <[tempFilePath := EmptyString]> fs in
          let '(fs', res) :=
            match write_fault flt with
            | Some (n, e) =>
                (<[tempFilePath := String.substring 0 n content]> fs1,
                 Err ("failed to write to temp file: " ++ e))
            | None =>
                let fs2 := <[tempFilePath := content]> fs1 in
                match close_fault flt with
                | Some e => (fs2, Err ("failed to close temp file: " ++ e))
                | None =>
                    (* a failed backup is only logged *)
                    let fs3 := fst (backupCurrentConfig (backup_flt flt) fm fs2) in
                    match os_Rename (rename_fault flt) tempFilePath (configFile fm) fs3 with
                    | Err e => (fs3, Err ("failed to replace config file: " ++ e))
                    | Ok fs4 =>
                        (* os.Chmod: a failure is only logged *)
                        (fs4, Ok tt)
                    end
                end
            end in
          (cleanup_temp tempFilePath fs', res)
      end
  end.

(** *** CleanupOldBackups

    The backup directory is [None] when it does not exist, and otherwise
    the finite map of its entries by name.  An entry records whether it is
    a directory, what [Info()] answers (the modification time, or an
    error) and whether [os.Remove] fails on it. *)

Record DirEntry : Type := {
  de_IsDir : bool;
  de_Info : result Z;
  de_remove_fault : option string
}.

Definition sweep_entry (now maxAge : Z) (dir : gmap string DirEntry)
    (file : string * DirEntry) : gmap string DirEntry :=
  if de_IsDir (snd file) then dir
  else
    match de_Info (snd file) with
    | Err _ => dir
    | Ok modTime =>
        if (maxAge <? gotime.Sub now modTime)%Z then
          match de_remove_fault (snd file) with
          | Some _ => dir
          | None => delete (fst file) dir
          end
        else dir
    end.

Definition CleanupOldBackups (readdir_fault : option string) (now : Z)
    (maxAge : Z) (dir : option (gmap string DirEntry))
    : option (gmap string DirEntry) * result unit :=
  match readdir_fault with
  | Some e => (dir, Err ("failed to read backup directory: " ++ e))
  | None =>
      match dir with
      | None => (None, Ok tt)
      | Some entries =>
          let files := map_to_list entries in
          (Some (fold_left (sweep_entry now maxAge) files entries), Ok tt)
      end
  end.

(** *** Notions used to state the properties of the publisher *)

(** The names [WriteConfigFile] and [backupCurrentConfig] give to the
    temporary file and to the backup. *)
Definition tempFilePath_of (fm : FileManager) (r : string) : string :=
  filepath.Join (filepath.Dir (configFile fm)) ("nats-config-" ++ r ++ ".tmp").

Definition backupFilename_of (fm : FileManager) (ts : string) : string :=
  filepath.Join (backupDir fm) ("nats-config-" ++ ts ++ ".conf").

(** The temporary file cannot be created, or written, or closed. *)
Definition fails_before_rename (flt : write_faults) (fm : FileManager)
    (fs : gmap string string) : Prop :=
  match temp_rand flt with
  | Err _ => True
  | Ok r =>
      fs !! tempFilePath_of fm r <> None \/ write_fault flt <> None \/
      close_fault flt <> None
  end.

(** *** Notions used to state the properties of the sweeper *)

(** An entry the sweep removes: not a directory, [Info()] answers a
    modification time that lies more than [maxAge] before [now], and
    [os.Remove] does not fail. *)
Definition swept (now maxAge : Z) (e : DirEntry) : bool :=
  negb (de_IsDir e)
  && match de_Info e with
     | Ok modTime => (maxAge <? gotime.Sub now modTime)%Z
     | Err _ => false
     end
  && match de_remove_fault e with
     | None => true
     | Some _ => false
     end.

Definition kept (now maxAge : Z) (file : string * DirEntry) : Prop :=
  swept now maxAge (snd file) = false.

#[global] Instance kept_dec now maxAge file : Decision (kept now maxAge file) :=
  bool_eq_dec (swept now maxAge (snd file)) false.

End filemanager.


Module nats.

(** ** internal/nats/reloader.go

    The mutex makes calls of [ReloadConfig] run one after the other; a call
    is a function of the [Reloader], of the two clock readings it takes
    ([now] for [time.Since], [done] for the [time.Now()] that follows a
    successful command) and of what running the command answers. *)

Record Reloader : Type := {
  reloadCommand : string;
  lastReload : Z;
  minInterval : Z
}.

Definition NewReloader (reloadCommand : string) : Reloader :=
  {| reloadCommand := reloadCommand;
     lastReload := gotime.zeroTime;
     minInterval := (5 * gotime.Second)%Z |}.

Definition SetMinimumInterval (r : Reloader) (interval : Z) : Reloader :=
  {| reloadCommand := reloadCommand r;
     lastReload := lastReload r;
     minInterval := interval |}.

Definition set_lastReload (r : Reloader) (t : Z) : Reloader :=
  {| reloadCommand := reloadCommand r;
     lastReload := t;
     minInterval := minInterval r |}.

(** [strings.Fields] on ASCII white space (tab, line feed, vertical tab,
    form feed, carriage return, space). *)
Definition is_space (c : ascii) : bool :=
  byte_in 9 13 c || Ascii.eqb c " "%char.

Fixpoint Fields_from (s : string) (cur : string) : list string :=
  match s with
  | EmptyString => match cur with EmptyString => [] | _ => [cur] end
  | String c r =>
      if is_space c then
        match cur with
        | EmptyString => Fields_from r EmptyString
        | _ => cur :: Fields_from r EmptyString
        end
      else Fields_from r (cur ++ String c EmptyString)
  end.

Definition strings_Fields (s : string) : list string :=
  Fields_from s EmptyString.

(** One execution of the external command: program and arguments. *)
Record Exec : Type := {
  cmdName : string;
  cmdArgs : list string
}.

(** [ReloadConfig] returns the reloader, the error (if any) and the
    commands it has executed.  [run] is [cmd.CombinedOutput()]: the
    captured output and the error of the run. *)
Definition ReloadConfig (run : Exec -> string * option string)
    (now done : Z) (r : Reloader) : Reloader * result unit * list Exec :=
  if (gotime.Since now (lastReload r) <? minInterval r)%Z then
    (r, Ok tt, [])
  else
    match strings_Fields (reloadCommand r) with
    | [] => (r, Err "empty reload command", [])
    | name :: args =>
        let cmd := {| cmdName := name; cmdArgs := args |} in
        match run cmd with
        | (output, Some err) =>
            (r, Err ("reload command failed: " ++ err ++ ", output: " ++ output),
             [cmd])
        | (output, None) => (set_lastReload r done, Ok tt, [cmd])
        end
    end.

(** *** Notions used to state the properties of the reloader *)

Definition reloader_of (x : Reloader * result unit * list Exec) : Reloader :=
  fst (fst x).
Definition error_of (x : Reloader * result unit * list Exec) : result unit :=
  snd (fst x).
Definition executed_of (x : Reloader * result unit * list Exec) : list Exec :=
  snd x.

(** A command that always fails, and one that always succeeds. *)
Definition run_fails (cmd : Exec) : string * option string :=
  (EmptyString, Some "exit status 1").
Definition run_succeeds (cmd : Exec) : string * option string :=
  (EmptyString, None).

End nats.

Module main.

(** ** cmd/sync/main.go, from "Run the initial sync" on

    The [select] of the main loop receives a sequence of events, a tick of
    the ticker or the stop signal.  [runSync] and the file manager's
    [CleanupOldBackups] act on the state of the world [World]; the loop is
    the same whatever they do, so they are parameters here.  The trace
    records the calls made and the lines logged. *)

Local Open Scope list_scope.

Inductive event : Type := Tick | Stop.

Inductive action : Type :=
| CallRunSync
| CallCleanupOldBackups (maxAge : Z)
| LogError (msg : string)
| LogWarn (msg : string)
| LogInfo (msg : string).

Section Loop.

Variable World : Type.
Variable runSync : World -> World * result unit.
Variable CleanupOldBackups : Z -> World -> World * result unit.

Definition log_if_err {A} (r : result A) (line : action) : list action :=
  match r with Err _ => [line] | Ok _ => [] end.

(** The [for { select { ... } }] loop.  When the events run out the loop
    is waiting in [select]; the flag tells whether [main] has returned. *)
Fixpoint main_loop (events : list event) (w : World) (trace : list action)
    : World * list action * bool :=
  match events with
  | [] => (w, trace, false)
  | Tick :: rest =>
      let '(w1, err) := runSync w in
      let trace1 := trace ++ [CallRunSync] ++ log_if_err err (LogError "Sync failed") in
      let '(w2, err2) := CleanupOldBackups (30 * 24 * gotime.Hour)%Z w1 in
      let trace2 :=
        trace1 ++ [CallCleanupOldBackups (30 * 24 * gotime.Hour)%Z]
               ++ log_if_err err2 (LogWarn "Failed to clean up old backups") in
      main_loop rest w2 trace2
  | Stop :: _ => (w, trace ++ [LogInfo "Shutting down gracefully"], true)
  end.

Definition main (events : list event) (w : World) : World * list action * bool :=
  let '(w1, err) := runSync w in
  let trace := [CallRunSync] ++ log_if_err err (LogError "Initial sync failed") in
  main_loop events w1 (trace ++ [LogInfo "Entering main loop"]).

End Loop.

(** The calls of a trace, the log lines dropped. *)
Definition is_call (a : action) : bool :=
  match a with
  | CallRunSync | CallCleanupOldBackups _ => true
  | _ => false
  end.

Definition calls (trace : list action) : list action :=
  List.filter is_call trace.

(** The ticks that arrive before the stop signal. *)
Fixpoint ticks_before_stop (events : list event) : nat :=
  match events with
  | Tick :: rest => S (ticks_before_stop rest)
  | _ => 0
  end.

(** Every call of [runSync] is directly followed by a call of
    [CleanupOldBackups] with the 30 day retention. *)
Fixpoint every_sync_swept (cs : list action) : bool :=
  match cs with
  | [] => true
  | CallRunSync :: rest =>
      match rest with
      | CallCleanupOldBackups maxAge :: _ =>
          (maxAge =? 30 * 24 * gotime.Hour)%Z && every_sync_swept rest
      | _ => false
      end
  | _ :: rest => every_sync_swept rest
  end.

(** The trace of a run. *)
Definition trace_of {World : Type} (x : World * list action * bool) : list action :=
  snd (fst x).

End main.


Module jsonfrag.

(** ** A decoder for the examples

    [Unmarshal] decodes the JSON arrays of strings that hold no escape
    sequence, and [null]; on these [json.Unmarshal] into a [[]string]
    answers the same.  Everything else is rejected.  The theorems below
    are stated for an arbitrary decoder; this one instantiates them. *)

Definition quote : ascii := ascii_of_N 34.
Definition backslash : ascii := ascii_of_N 92.

Fixpoint skip_ws (s : string) : string :=
  match s with
  | String c r =>
      if Ascii.eqb c " "%char || byte_in 9 10 c || byte_in 13 13 c
      then skip_ws r else s
  | EmptyString => s
  end.

Fixpoint read_string (s acc : string) : option (string * string) :=
  match s with
  | EmptyString => None
  | String c r =>
      if Ascii.eqb c quote then Some (acc, r)
      else if Ascii.eqb c backslash || byte_in 0 31 c then None
      else read_string r (acc ++ String c EmptyString)
  end.

Fixpoint read_elems (fuel : nat) (s : string) : option (list string) :=
  match fuel with
  | O => None
  | S f =>
      match skip_ws s with
      | String c r =>
          if Ascii.eqb c quote then
            match read_string r EmptyString with
            | None => None
            | Some (x, r') =>
                match skip_ws r' with
                | String d r'' =>
                    if Ascii.eqb d ","%char then
                      match read_elems f r'' with
                      | Some xs => Some (x :: xs)
                      | None => None
                      end
                    else if Ascii.eqb d "]"%char then
                      match skip_ws r'' with
                      | EmptyString => Some [x]
                      | _ => None
                      end
                    else None
                | EmptyString => None
                end
            end
          else None
      | EmptyString => None
      end
  end.

Definition Unmarshal (raw : string) : result (list string) :=
  match skip_ws raw with
  | String c r =>
      if Ascii.eqb c "["%char then
        match skip_ws r with
        | String d r' =>
            if Ascii.eqb d "]"%char then
              match skip_ws r' with
              | EmptyString => Ok []
              | _ => Err "invalid character after top-level value"
              end
            else
              match read_elems (String.length r) r with
              | Some xs => Ok xs
              | None => Err "cannot unmarshal into Go value of type []string"
              end
        | EmptyString => Err "unexpected end of JSON input"
        end
      else if String.eqb (skip_ws raw) "null" then Ok []
      else Err "cannot unmarshal into Go value of type []string"
  | EmptyString => Err "unexpected end of JSON input"
  end.

End jsonfrag.


Module example.
Import models generator.

(** ** Concrete data for the examples

    [FormatDefaultPermissions] and [FormatConfigFile] below stand in for
    the two functions of package models that are parameters of the model:
    the defaults are plain strings, quoted, and the renderer writes one
    line per role and per user.  The theorems hold for every choice of
    them. *)

Definition FormatDefaultPermissions (p s : string) : string * string :=
  (dq ++ p ++ dq, dq ++ s ++ dq).

Definition nl : string := String (ascii_of_N 10) EmptyString.

Definition render_role (r : NatsRole) : string :=
  nr_Name r ++ " = { publish = " ++ nr_PublishPermissions r
    ++ ", subscribe = " ++ nr_SubscribePermissions r ++ " }" ++ nl.

Definition render_user (u : NatsUser) : string :=
  "{ user: " ++ nu_Username u ++ ", password: " ++ dq ++ nu_Password u ++ dq
    ++ ", permissions: $" ++ nu_RoleName u ++ " }"
    ++ (if nu_IsLast u then EmptyString else ",") ++ nl.

Definition FormatConfigFile (d : NatsConfigData) : result string :=
  Ok ("default_permissions = { publish = " ++ DefaultPublish d
        ++ ", subscribe = " ++ DefaultSubscribe d ++ " }" ++ nl
        ++ String.concat EmptyString (map render_role (Roles d))
        ++ "users = [" ++ nl
        ++ String.concat EmptyString (map render_user (Users d))
        ++ "]" ++ nl).

Definition g : Generator string :=
  {| defaultPublish := "_INBOX.>"; defaultSubscribe := "_INBOX.>" |}.

Definition configData := generator.configData jsonfrag.Unmarshal string FormatDefaultPermissions.
Definition GenerateConfig :=
  generator.GenerateConfig jsonfrag.Unmarshal string FormatDefaultPermissions FormatConfigFile.

(** The scenario of the specification. *)
Definition admin_panel : MqttRole :=
  {| role_ID := "r1"; Name := "Admin Panel";
     PublishPermissions := "[" ++ dq ++ "a/b" ++ dq ++ "," ++ dq ++ "a/c" ++ dq ++ "]";
     SubscribePermissions := EmptyString |}.

Definition Bob : MqttUser :=
  {| user_ID := "u1"; Username := "Bob"; Password := "pw1";
     RoleID := "r1"; Active := true |}.

Definition alice : MqttUser :=
  {| user_ID := "u2"; Username := "alice"; Password := "pw2";
     RoleID := "r9"; Active := true |}.

(** A second account that differs from [Bob] by the case of its name. *)
Definition bob : MqttUser :=
  {| user_ID := "u3"; Username := "bob"; Password := "pw3";
     RoleID := "r1"; Active := true |}.

(** Two roles whose names normalise to the same [ADMIN]. *)
Definition admin_lower : MqttRole :=
  {| role_ID := "r2"; Name := "admin";
     PublishPermissions := "[" ++ dq ++ "x" ++ dq ++ "]";
     SubscribePermissions := EmptyString |}.

Definition admin_upper : MqttRole :=
  {| role_ID := "r3"; Name := "Admin";
     PublishPermissions := "[" ++ dq ++ "y" ++ dq ++ "]";
     SubscribePermissions := EmptyString |}.

(** A role whose publish permissions are a JSON object, not an array. *)
Definition broken : MqttRole :=
  {| role_ID := "r4"; Name := "broken";
     PublishPermissions := "{}";
     SubscribePermissions := "[" ++ dq ++ "s" ++ dq ++ "]" |}.

End example.


Module example_fs.
Import filemanager.

(** ** A file system for the examples *)

Definition fm : FileManager := NewFileManager "/etc/nats/nats.conf" "/var/backups".

Definition fs : gmap string string := {[ "/etc/nats/nats.conf" := "users = []" ]}.

Definition no_backup_fault : backup_faults :=
  {| bstat_fault := None; mkdir_fault := None; open_fault := None;
     create_fault := None; copy_fault := None; timestamp := "20240102-030405" |}.

(** The disk is full after three bytes of the temporary file. *)
Definition disk_full : write_faults :=
  {| temp_rand := Ok "1234567"; write_fault := Some (3%nat, "no space left on device");
     close_fault := None; backup_flt := no_backup_fault;
     rename_fault := None; chmod_fault := None |}.

(** The backup directory cannot be created; everything else works. *)
Definition backup_fails : write_faults :=
  {| temp_rand := Ok "1234567"; write_fault := None; close_fault := None;
     backup_flt :=
       {| bstat_fault := None; mkdir_fault := Some "permission denied";
          open_fault := None; create_fault := None; copy_fault := None;
          timestamp := "20240102-030405" |};
     rename_fault := None; chmod_fault := None |}.

End example_fs.


Module example_dir.
Import filemanager.

(** ** A backup directory for the examples

    [now] is 2024-03-01 00:00:00 UTC; the retention is 30 days. *)

Definition now : Z := (1709251200 * gotime.Second)%Z.
Definition days (n : Z) : Z := (n * 24 * gotime.Hour)%Z.

Definition file (age : Z) (fault : option string) : DirEntry :=
  {| de_IsDir := false; de_Info := Ok (now - age)%Z; de_remove_fault := fault |}.

Definition backups : gmap string DirEntry :=
  {[ "nats-config-20240101-000000.conf" := file (days 60) None;
     "nats-config-20240115-000000.conf" := file (days 46) (Some "permission denied");
     "nats-config-20240131-000000.conf" := file (days 30) None;
     "nats-config-20240220-000000.conf" := file (days 10) None;
     "archive" := {| de_IsDir := true; de_Info := Ok (now - days 400)%Z;
                     de_remove_fault := None |} ]}.

End example_dir.


Module sync.
Import models.

(** ** cmd/sync/main.go: [runSync] on a world

    The world holds the state of the file manager and of the reloader, the
    file system, the backup directory, the commands executed so far and,
    cycle by cycle, what the outside answers: the two fetches of the
    PocketBase client, the faults of the system calls, the outcome of the
    reload command and the readings of the clock.  The file system holds
    the backups [WriteConfigFile] writes; the listing the sweep works on is
    the component [w_dir]. *)

Record Outside : Type := {
  roles_fetched : result (list MqttRole);
  users_fetched : result (list MqttUser);
  check_flt : filemanager.check_faults;
  write_flt : filemanager.write_faults;
  run : nats.Exec -> string * option string;
  now : Z;
  done : Z;
  readdir_flt : option string
}.

Section Sync.

Variable json_Unmarshal : string -> result (list string).
Variable iface : Type.
Variable FormatDefaultPermissions : iface -> iface -> string * string.
Variable FormatConfigFile : NatsConfigData -> result string.
Variable g : generator.Generator iface.

Record World : Type := {
  w_fm : filemanager.FileManager;
  w_fs : gmap string string;
  w_reloader : nats.Reloader;
  w_dir : option (gmap string filemanager.DirEntry);
  w_executed : list nats.Exec;
  w_cycle : nat;
  w_outside : nat -> Outside
}.

Definition next_cycle (w : World) : World :=
  {| w_fm := w_fm w; w_fs := w_fs w; w_reloader := w_reloader w;
     w_dir := w_dir w; w_executed := w_executed w;
     w_cycle := S (w_cycle w); w_outside := w_outside w |}.

Definition with_fm (w : World) (fm : filemanager.FileManager) : World :=
  {| w_fm := fm; w_fs := w_fs w; w_reloader := w_reloader w;
     w_dir := w_dir w; w_executed := w_executed w;
     w_cycle := w_cycle w; w_outside := w_outside w |}.

Definition with_fs (w : World) (fs : gmap string string) : World :=
  {| w_fm := w_fm w; w_fs := fs; w_reloader := w_reloader w;
     w_dir := w_dir w; w_executed := w_executed w;
     w_cycle := w_cycle w; w_outside := w_outside w |}.

Definition with_reloader (w : World) (r : nats.Reloader)
    (ex : list nats.Exec) : World :=
  {| w_fm := w_fm w; w_fs := w_fs w; w_reloader := r;
     w_dir := w_dir w; w_executed := (w_executed w ++ ex)%list;
     w_cycle := w_cycle w; w_outside := w_outside w |}.

Definition with_dir (w : World)
    (dir : option (gmap string filemanager.DirEntry)) : World :=
  {| w_fm := w_fm w; w_fs := w_fs w; w_reloader := w_reloader w;
     w_dir := dir; w_executed := w_executed w;
     w_cycle := w_cycle w; w_outside := w_outside w |}.

Definition runSync (w0 : World) : World * result unit :=
  let w := next_cycle w0 in
  let out := w_outside w (w_cycle w) in
  match roles_fetched out with
  | Err err => (w, Err ("failed to get roles: " ++ err))
  | Ok roles =>
  match users_fetched out with
  | Err err => (w, Err ("failed to get users: " ++ err))
  | Ok users =>
  match generator.GenerateConfig json_Unmarshal iface FormatDefaultPermissions
          FormatConfigFile g roles users with
  | Err err => (w, Err ("failed to generate config: " ++ err))
  | Ok config =>
  match filemanager.HasConfigChanged (check_flt out) (w_fs w) (w_fm w) config with
  | (fm, Err err) => (with_fm w fm, Err ("failed to check if config changed: " ++ err))
  | (fm, Ok false) => (with_fm w fm, Ok tt)
  | (fm, Ok true) =>
      let w := with_fm w fm in
      match filemanager.WriteConfigFile (write_flt out) (w_fm w) (w_fs w) config with
      | (fs, Err err) => (with_fs w fs, Err ("failed to write config file: " ++ err))
      | (fs, Ok _) =>
          let w := with_fs w fs in
          match nats.ReloadConfig (run out) (now out) (done out) (w_reloader w) with
          | (r, Err err, ex) =>
              (with_reloader w r ex, Err ("failed to reload NATS: " ++ err))
          | (r, Ok _, ex) => (with_reloader w r ex, Ok tt)
          end
      end
  end end end end.

(** [fileManager.CleanupOldBackups], in the cycle the world is in. *)
Definition CleanupOldBackups (maxAge : Z) (w : World) : World * result unit :=
  let out := w_outside w (w_cycle w) in
  let '(dir, err) :=
    filemanager.CleanupOldBackups (readdir_flt out) (now out) maxAge (w_dir w) in
  (with_dir w dir, err).

Definition main (events : list main.event) (w : World)
    : World * list main.action * bool :=
  main.main World runSync CleanupOldBackups events w.

End Sync.

End sync.


Module example_run.

(** ** A run for the examples

    The initial cycle publishes the scenario of the specification over an
    older artifact; the cycle of the first tick fetches the same records;
    in the cycle of the second tick the fetch of the roles fails. *)

Definition outside (n : nat) : sync.Outside :=
  {| sync.roles_fetched :=
       if (n <=? 2)%nat then Ok [example.admin_panel]
       else Err "roles request failed with status 500: ";
     sync.users_fetched := Ok [example.Bob; example.alice];
     sync.check_flt :=
       {| filemanager.stat_fault := None; filemanager.read_fault := None |};
     sync.write_flt :=
       {| filemanager.temp_rand := Ok "1234567";
          filemanager.write_fault := None;
          filemanager.close_fault := None;
          filemanager.backup_flt := example_fs.no_backup_fault;
          filemanager.rename_fault := None;
          filemanager.chmod_fault := None |};
     sync.run := nats.run_succeeds;
     sync.now := (example_dir.now + Z.of_nat n * 60 * gotime.Second)%Z;
     sync.done := (example_dir.now + Z.of_nat n * 60 * gotime.Second + 200000000)%Z;
     sync.readdir_flt := None |}.

Definition world : sync.World :=
  {| sync.w_fm := example_fs.fm;
     sync.w_fs := example_fs.fs;
     sync.w_reloader := nats.NewReloader "nats-server --signal reload";
     sync.w_dir := Some example_dir.backups;
     sync.w_executed := [];
     sync.w_cycle := 0;
     sync.w_outside := outside |}.

Definition run (events : list main.event) : sync.World * list main.action * bool :=
  sync.main jsonfrag.Unmarshal string example.FormatDefaultPermissions
    example.FormatConfigFile example.g events world.

End example_run.

(** * Properties *)

(** ** Test vectors of the hash *)

Example sha256_empty :
  sha256.hex_EncodeToString (sha256.Sum256 EmptyString)
  = "e3b0c44298fc1c149afbf4c8996fb92427ae41e4649b934ca495991b7852b855".
Proof. vm_compute. reflexivity. Qed.

Example sha256_abc :
  sha256.hex_EncodeToString (sha256.Sum256 "abc")
  = "ba7816bf8f01cfea414140de5dae2223b00361a396177a9cb410ff61f20015ad".
Proof. vm_compute. reflexivity. Qed.

Example sha256_two_blocks :
  sha256.hex_EncodeToString (sha256.Sum256
    "aaaaaaaaaaaaaaaaaaaaaaaaaaaaaaaaaaaaaaaaaaaaaaaaaaaaaaaaaaaaaaaaaaaaaa")
  = "6bd5e5034855a11241f0dee8fc72850ffd9955b28347a86428b5fa19119f6ad0".
Proof. vm_compute. reflexivity. Qed.

(** ** sort.Slice *)

Section SortFacts.
Context {A : Type}.
Variable less : A -> A -> bool.

Lemma sift_Permutation (x : A) (done : list A) :
  Permutation (sift less x done) (x :: done).
Proof.
  induction done as [|y r IH]; simpl; [reflexivity|].
  destruct (less x y); [|reflexivity].
  rewrite IH. apply perm_swap.
Qed.

Lemma fold_sift_Permutation (data done : list A) :
  Permutation (fold_left (fun d x => sift less x d) data done) (data ++ done).
Proof.
  revert done. induction data as [|x data IH]; intros done; simpl; [reflexivity|].
  rewrite IH, sift_Permutation. symmetry. apply Permutation_middle.
Qed.

Lemma sort_Slice_Permutation (data : list A) :
  Permutation (sort_Slice less data) data.
Proof.
  unfold sort_Slice. rewrite <- Permutation_rev, fold_sift_Permutation.
  now rewrite app_nil_r.
Qed.

Lemma sort_Slice_length (data : list A) :
  length (sort_Slice less data) = length data.
Proof. apply Permutation_length, sort_Slice_Permutation. Qed.

(** Two slices that are related element by element, by a relation the
    comparison cannot tell apart, are sorted the same way. *)
Variable R : A -> A -> Prop.
Hypothesis less_R :
  forall a a' b b', R a a' -> R b b' -> less a b = less a' b'.

Lemma sift_Forall2 x x' d d' :
  R x x' -> Forall2 R d d' -> Forall2 R (sift less x d) (sift less x' d').
Proof.
  intros Hx Hd. induction Hd as [|y y' r r' Hy Hr IH]; simpl.
  - repeat constructor; assumption.
  - rewrite (less_R x x' y y' Hx Hy). destruct (less x' y').
    + constructor; assumption.
    + repeat constructor; assumption.
Qed.

Lemma sort_Slice_Forall2 l l' :
  Forall2 R l l' -> Forall2 R (sort_Slice less l) (sort_Slice less l').
Proof.
  intros H. unfold sort_Slice. rewrite !rev_alt. apply Forall2_reverse.
  assert (G : forall d d', Forall2 R d d' ->
            Forall2 R (fold_left (fun d x => sift less x d) l d)
                      (fold_left (fun d x => sift less x d) l' d')).
  { induction H as [|x x' l l' Hx Hl IH]; intros d d' Hd; simpl; [assumption|].
    apply IH, sift_Forall2; assumption. }
  apply G. constructor.
Qed.

End SortFacts.

(** ** Sorting without ties

    The bytewise order of strings is a strict total order; a slice whose
    sort keys are pairwise distinct has one sorted arrangement only, so
    that [sort.Slice] returns the same slice for every permutation of its
    input. *)

Lemma string_compare_trans a b c :
  String.compare a b = Lt -> String.compare b c = Lt -> String.compare a c = Lt.
Proof.
  revert b c. induction a as [|x a IH]; intros [|y b] [|z c]; simpl;
    try discriminate; try reflexivity.
  unfold Ascii.compare.
  destruct (N.compare_spec (N_of_ascii x) (N_of_ascii y)) as [Exy|Lxy|Gxy];
    destruct (N.compare_spec (N_of_ascii y) (N_of_ascii z)) as [Eyz|Lyz|Gyz];
    destruct (N.compare_spec (N_of_ascii x) (N_of_ascii z)) as [Exz|Lxz|Gxz];
    try discriminate; try reflexivity; try lia.
  apply IH.
Qed.

Lemma string_ltb_asym a b : String.ltb a b = true -> String.ltb b a = false.
Proof.
  unfold String.ltb. rewrite (String.compare_antisym b a).
  destruct (String.compare a b); simpl; congruence.
Qed.

Lemma string_ltb_total a b :
  String.ltb a b = false -> String.ltb b a = false -> a = b.
Proof.
  unfold String.ltb. rewrite (String.compare_antisym b a).
  destruct (String.compare a b) eqn:E; simpl; try discriminate.
  intros _ _. now apply String.compare_eq_iff.
Qed.

Lemma string_ltb_trans a b c :
  String.ltb a b = true -> String.ltb b c = true -> String.ltb a c = true.
Proof.
  unfold String.ltb.
  destruct (String.compare a b) eqn:E1; try discriminate.
  destruct (String.compare b c) eqn:E2; try discriminate.
  now rewrite (string_compare_trans a b c E1 E2).
Qed.

Lemma string_geb_trans a b c :
  String.ltb a b = false -> String.ltb b c = false -> String.ltb a c = false.
Proof.
  intros H1 H2. destruct (String.ltb a c) eqn:E; [|reflexivity].
  destruct (String.ltb b a) eqn:E3.
  - rewrite (string_ltb_trans b a c E3 E) in H2. discriminate.
  - rewrite (string_ltb_total a b H1 E3) in E. congruence.
Qed.

Section SortByKey.
Context {A : Type}.
Variable key : A -> string.

Local Abbreviation less := (fun a b : A => String.ltb (key a) (key b)).

(** The placed prefix, in reverse, goes down. *)
Lemma sift_descending x done :
  StronglySorted (fun a b => less a b = false) done ->
  StronglySorted (fun a b => less a b = false) (sift less x done).
Proof.
  induction done as [|y r IH]; intros H; simpl.
  - repeat constructor.
  - apply StronglySorted_inv in H. destruct H as [Hr Hy].
    rewrite Forall_forall in Hy.
    destruct (String.ltb (key x) (key y)) eqn:E.
    + constructor; [now apply IH|].
      apply Forall_forall. intros z Hz.
      rewrite (sift_Permutation less x r) in Hz.
      apply elem_of_cons in Hz. destruct Hz as [->|Hz]; [now apply string_ltb_asym|].
      now apply Hy.
    + constructor; [now constructor; [|apply Forall_forall]|].
      constructor; [exact E|].
      apply Forall_forall. intros z Hz.
      eapply string_geb_trans; [exact E|]. now apply Hy.
Qed.

Lemma StronglySorted_snoc (R : A -> A -> Prop) l a :
  StronglySorted R l -> Forall (fun b => R b a) l -> StronglySorted R (l ++ [a]).
Proof.
  induction 1 as [|b l Hl IH Hb]; intros Ha; simpl.
  - repeat constructor.
  - apply Forall_cons in Ha. destruct Ha as [Hba Ha].
    constructor; [now apply IH|].
    apply Forall_app. split; [assumption|]. now repeat constructor.
Qed.

Lemma StronglySorted_rev (R : A -> A -> Prop) l :
  StronglySorted R l -> StronglySorted (fun a b => R b a) (rev l).
Proof.
  induction 1 as [|a l Hl IH Ha]; simpl; [constructor|].
  apply StronglySorted_snoc; [exact IH|].
  rewrite Forall_forall in *. intros b Hb. apply Ha.
  now rewrite <- Permutation_rev in Hb.
Qed.

(** [sort.Slice] sorts: no element is less than one placed before it. *)
Lemma sort_Slice_sorted data :
  StronglySorted (fun a b => less b a = false) (sort_Slice less data).
Proof.
  unfold sort_Slice.
  apply (StronglySorted_rev (fun a b => less a b = false)).
  assert (G : forall done,
             StronglySorted (fun a b => less a b = false) done ->
             StronglySorted (fun a b => less a b = false)
               (fold_left (fun d x => sift less x d) data done)).
  { induction data as [|x data IH]; intros done Hd; simpl; [assumption|].
    apply IH, sift_descending, Hd. }
  apply G. constructor.
Qed.

(** Two sorted arrangements of elements with distinct keys are equal. *)
Lemma sorted_perm_unique l l' :
  NoDup (map key l) ->
  StronglySorted (fun a b => less b a = false) l ->
  StronglySorted (fun a b => less b a = false) l' ->
  Permutation l l' -> l = l'.
Proof.
  revert l'. induction l as [|a l IH]; intros l' Hnd Hs Hs' Hp.
  - now apply Permutation_nil in Hp.
  - destruct l' as [|a' l']; [now apply Permutation_sym, Permutation_nil in Hp|].
    apply StronglySorted_inv in Hs. destruct Hs as [Hs Ha].
    apply StronglySorted_inv in Hs'. destruct Hs' as [Hs' Ha'].
    rewrite Forall_forall in Ha, Ha'.
    simpl in Hnd. apply NoDup_cons in Hnd. destruct Hnd as [Hk Hnd].
    assert (E : a = a').
    { assert (H1 : a ∈ a' :: l') by (rewrite <- Hp; left).
      assert (H2 : a' ∈ a :: l) by (rewrite Hp; left).
      apply elem_of_cons in H1. destruct H1 as [H1|H1]; [exact H1|].
      apply elem_of_cons in H2. destruct H2 as [H2|H2]; [now symmetry|].
      exfalso. apply Hk.
      rewrite (string_ltb_total (key a) (key a') (Ha' a H1) (Ha a' H2)).
      now apply list_elem_of_fmap_2. }
    subst a'. f_equal. apply IH; try assumption.
    now apply Permutation_cons_inv in Hp.
Qed.

Lemma sort_Slice_of_Permutation l l' :
  NoDup (map key l) -> Permutation l l' ->
  sort_Slice less l = sort_Slice less l'.
Proof.
  intros Hnd Hp. apply sorted_perm_unique.
  - now rewrite (sort_Slice_Permutation less l).
  - apply sort_Slice_sorted.
  - apply sort_Slice_sorted.
  - now rewrite !sort_Slice_Permutation.
Qed.

End SortByKey.

(** ** The generator *)

Section GeneratorFacts.
Import models generator.

Variable json_Unmarshal : string -> result (list string).
Variable iface : Type.
Variable FormatDefaultPermissions : iface -> iface -> string * string.
Variable FormatConfigFile : NatsConfigData -> result string.

Local Abbreviation configData :=
  (generator.configData json_Unmarshal iface FormatDefaultPermissions).
Local Abbreviation GenerateConfig :=
  (generator.GenerateConfig json_Unmarshal iface FormatDefaultPermissions
     FormatConfigFile).
Local Abbreviation add_role := (generator.add_role json_Unmarshal).

Lemma alike_refl a : alike a a.
Proof. repeat split. Qed.

Lemma less_user_alike a a' b b' :
  alike a a' -> alike b b' -> less_user a b = less_user a' b'.
Proof. intros (Ha & _) (Hb & _). unfold less_user. now rewrite Ha, Hb. Qed.

Lemma imap_alike (f : nat -> NatsUser -> NatsUser) l l' :
  (forall i a a', alike a a' -> f i a = f i a') ->
  Forall2 alike l l' -> imap f l = imap f l'.
Proof.
  intros Hf H. revert f Hf.
  induction H as [|a a' l l' Ha Hl IH]; intros f Hf; simpl; [reflexivity|].
  f_equal; [now apply Hf|]. apply IH. intros i b b' Hb. now apply Hf.
Qed.

Lemma update_IsLast_alike l l' :
  Forall2 alike l l' -> update_IsLast l = update_IsLast l'.
Proof.
  intros H. unfold update_IsLast. rewrite (Forall2_length _ _ _ H).
  apply imap_alike; [|assumption].
  intros i a a' (Hu & Hp & Hr). unfold set_IsLast. now rewrite Hu, Hp, Hr.
Qed.

Lemma imap_is_alike (f : nat -> NatsUser -> NatsUser) l :
  (forall i a, alike a (f i a)) -> Forall2 alike l (imap f l).
Proof.
  revert f. induction l as [|a l IH]; intros f Hf; simpl; constructor.
  - apply Hf.
  - apply IH. intros i b. apply Hf.
Qed.

Lemma update_IsLast_is_alike l : Forall2 alike l (update_IsLast l).
Proof. apply imap_is_alike. intros i a. repeat split. Qed.

(** The index and the length the loop "Add users" works with only reach
    [IsLast]. *)
Lemma add_users_alike roleMap (f : nat -> MqttUser -> option NatsUser) users :
  (forall i u, option_Forall2 alike (f i u) (entry roleMap u)) ->
  Forall2 alike (omap id (imap f users)) (omap (entry roleMap) users).
Proof.
  revert f. induction users as [|u users IH]; intros f Hf; simpl; [constructor|].
  specialize (IH (fun i => f (S i)) (fun i v => Hf (S i) v)).
  destruct (Hf 0%nat u) as [a b Hab|]; simpl; [constructor|]; assumption.
Qed.

Lemma add_user_entry roleMap n i u :
  option_Forall2 alike (add_user roleMap n i u) (entry roleMap u).
Proof.
  unfold add_user, entry. destruct (roleMap !! RoleID u); constructor.
  repeat split.
Qed.

(** [configData], field by field. *)
Lemma configData_eq g roles users :
  configData g roles users =
  {| DefaultPublish :=
       fst (FormatDefaultPermissions (defaultPublish _ g) (defaultSubscribe _ g));
     DefaultSubscribe :=
       snd (FormatDefaultPermissions (defaultPublish _ g) (defaultSubscribe _ g));
     Roles := sort_Slice less_role (map add_role roles);
     Users := canonical_users roles users |}.
Proof.
  unfold generator.configData, canonical_users.
  destruct (FormatDefaultPermissions _ _) as [p s]; simpl. f_equal.
  apply update_IsLast_alike, sort_Slice_Forall2.
  - apply less_user_alike.
  - apply add_users_alike. intros i u. apply add_user_entry.
Qed.

Lemma GenerateConfig_eq g g' roles roles' users users' :
  configData g roles users = configData g' roles' users' ->
  GenerateConfig g roles users = GenerateConfig g' roles' users'.
Proof. intros H. unfold generator.GenerateConfig. now rewrite H. Qed.

(** The role map: which identifiers it knows, and what it answers. *)
Lemma fold_roleMap_None roles (m : gmap string MqttRole) k :
  fold_left (fun roleMap role => <[role_ID role := role]> roleMap) roles m !! k = None
  <-> m !! k = None /\ ~ In k (map role_ID roles).
Proof.
  revert m. induction roles as [|r roles IH]; intros m; simpl; [tauto|].
  rewrite IH. destruct (decide (role_ID r = k)) as [->|Hne].
  - rewrite lookup_insert_eq. split; [intros [? _]; discriminate|tauto].
  - rewrite lookup_insert_ne by assumption. tauto.
Qed.

Lemma build_roleMap_None roles k :
  build_roleMap roles !! k = None <-> ~ In k (map role_ID roles).
Proof.
  unfold build_roleMap. rewrite fold_roleMap_None, lookup_empty. tauto.
Qed.

Lemma fold_roleMap_Some roles (m : gmap string MqttRole) k r :
  fold_left (fun roleMap role => <[role_ID role := role]> roleMap) roles m !! k = Some r ->
  (In r roles /\ role_ID r = k) \/ m !! k = Some r.
Proof.
  revert m. induction roles as [|r0 roles IH]; intros m H; simpl in *; [tauto|].
  apply IH in H. destruct H as [[H1 H2]|H]; [tauto|].
  destruct (decide (role_ID r0 = k)) as [<-|Hne].
  - rewrite lookup_insert_eq in H. injection H as <-. tauto.
  - rewrite lookup_insert_ne in H by assumption. tauto.
Qed.

Lemma build_roleMap_Some roles k r :
  build_roleMap roles !! k = Some r -> In r roles /\ role_ID r = k.
Proof.
  intros H. apply fold_roleMap_Some in H. rewrite lookup_empty in H.
  destruct H as [H|H]; [assumption|discriminate].
Qed.

Lemma fold_roleMap_same roles roles' (m m' : gmap string MqttRole) :
  Forall2 (same_role json_Unmarshal) roles roles' ->
  (forall k, option_Forall2 (same_role json_Unmarshal) (m !! k) (m' !! k)) ->
  forall k,
    option_Forall2 (same_role json_Unmarshal)
      (fold_left (fun roleMap role => <[role_ID role := role]> roleMap) roles m !! k)
      (fold_left (fun roleMap role => <[role_ID role := role]> roleMap) roles' m' !! k).
Proof.
  intros H. revert m m'.
  induction H as [|r r' roles roles' Hr Hrs IH]; intros m m' Hm k; simpl; [apply Hm|].
  apply IH. intros j. destruct Hr as (Hid & Hn & Ha). rewrite <- Hid.
  destruct (decide (role_ID r = j)) as [->|Hne].
  - rewrite !lookup_insert_eq. constructor. repeat split; assumption.
  - rewrite !lookup_insert_ne by assumption. apply Hm.
Qed.

Lemma configData_same_roles g roles roles' users :
  Forall2 (same_role json_Unmarshal) roles roles' ->
  configData g roles users = configData g roles' users.
Proof.
  intros H. rewrite !configData_eq. f_equal.
  - f_equal. induction H as [|r r' ? ? (_ & _ & Ha) _ IH]; simpl; [reflexivity|].
    now rewrite Ha, IH.
  - unfold canonical_users. do 2 f_equal.
    assert (E : forall u, entry (build_roleMap roles) u = entry (build_roleMap roles') u).
    { intros u. unfold entry.
      pose proof (fold_roleMap_same roles roles' ∅ ∅ H) as G.
      specialize (G (fun k => ltac:(rewrite lookup_empty; constructor)) (RoleID u)).
      fold (build_roleMap roles) (build_roleMap roles') in G.
      destruct G as [r r' (_ & Hn & _)|]; [|reflexivity].
      unfold NormalizeRoleName. now rewrite Hn. }
    induction users as [|u users IH]; simpl; [reflexivity|].
    rewrite E. destruct (entry (build_roleMap roles') u); [f_equal|]; exact IH.
Qed.

(** C7. A user whose role identifier is the identifier of no fetched role
    contributes nothing: the data handed to the template and the result of
    [GenerateConfig] (text or error) are those obtained without that user,
    so that no error is due to it and the entries of the other users are
    untouched. *)
Theorem C7_dangling_user_excluded g roles us1 u us2 :
  ~ In (RoleID u) (map role_ID roles) ->
  configData g roles (us1 ++ u :: us2) = configData g roles (us1 ++ us2) /\
  GenerateConfig g roles (us1 ++ u :: us2) = GenerateConfig g roles (us1 ++ us2).
Proof.
  intros Hu. apply build_roleMap_None in Hu.
  assert (E : configData g roles (us1 ++ u :: us2) = configData g roles (us1 ++ us2)).
  { rewrite !configData_eq. f_equal. unfold canonical_users. do 2 f_equal.
    rewrite !omap_app. f_equal. simpl. unfold entry at 1. now rewrite Hu. }
  split; [exact E|]. now apply GenerateConfig_eq.
Qed.

(** C9. A permission field the JSON decoder rejects is formatted as the
    quoted empty string, for publish and for subscribe alike, and
    [GenerateConfig] answers what it answers when the rejected fields of
    the role are empty: the malformed field is the cause of no error. *)
Theorem C9_malformed_permissions_degrade role :
  (is_err (json_Unmarshal (PublishPermissions role)) = true ->
   FormatPublishPermissions json_Unmarshal role = dq ++ dq) /\
  (is_err (json_Unmarshal (SubscribePermissions role)) = true ->
   FormatSubscribePermissions json_Unmarshal role = dq ++ dq) /\
  (forall g rs1 rs2 users,
     GenerateConfig g (rs1 ++ role :: rs2) users =
     GenerateConfig g (rs1 ++ degrade json_Unmarshal role :: rs2) users).
Proof.
  assert (F : forall raw, is_err (json_Unmarshal raw) = true ->
              format_permissions (GetPermissions json_Unmarshal raw) = dq ++ dq).
  { intros raw H. unfold GetPermissions.
    destruct (String.length raw =? 0)%nat; [reflexivity|].
    destruct (json_Unmarshal raw); [discriminate|reflexivity]. }
  assert (D : forall raw,
              format_permissions (GetPermissions json_Unmarshal (degrade_raw json_Unmarshal raw))
              = format_permissions (GetPermissions json_Unmarshal raw)).
  { intros raw. unfold degrade_raw.
    destruct (json_Unmarshal raw) eqn:E; [reflexivity|].
    rewrite (F raw) by (rewrite E; reflexivity). reflexivity. }
  split; [apply F|]. split; [apply F|].
  intros g rs1 rs2 users. apply GenerateConfig_eq, configData_same_roles.
  apply Forall2_app; [apply Forall_Forall2_diag, Forall_forall; intros; repeat split|].
  constructor; [|apply Forall_Forall2_diag, Forall_forall; intros; repeat split].
  repeat split. unfold generator.add_role, FormatPublishPermissions,
    FormatSubscribePermissions, GetPublishPermissions, GetSubscribePermissions.
  simpl. now rewrite !D.
Qed.

(** C10. [GenerateConfig] does not read [Active]: whatever flags the users
    carry the result is the same, and a user whose role identifier is
    known has its entry in the template data, active or not. *)
Theorem C10_active_flag_ignored g roles users (flags : MqttUser -> bool) :
  GenerateConfig g roles (map (fun u => set_Active u (flags u)) users) =
  GenerateConfig g roles users /\
  (forall u b,
     In (set_Active u b) users ->
     In (RoleID u) (map role_ID roles) ->
     exists e role,
       In e (Users (configData g roles users)) /\
       In role roles /\ role_ID role = RoleID u /\
       nu_Username e = dq ++ Username u ++ dq /\
       nu_Password e = Password u /\
       nu_RoleName e = NormalizeRoleName role).
Proof.
  split.
  - apply GenerateConfig_eq. rewrite !configData_eq. f_equal.
    unfold canonical_users. do 2 f_equal.
    induction users as [|u users IH]; simpl; [reflexivity|].
    change (entry (build_roleMap roles) (set_Active u (flags u)))
      with (entry (build_roleMap roles) u).
    destruct (entry (build_roleMap roles) u); [f_equal|]; exact IH.
  - intros u b Hin Hid.
    destruct (build_roleMap roles !! RoleID u) as [role|] eqn:E;
      [|apply build_roleMap_None in E; contradiction].
    destruct (build_roleMap_Some _ _ _ E) as [Hr Hk].
    set (e0 := {| nu_Username := dq ++ Username u ++ dq;
                  nu_Password := Password u;
                  nu_RoleName := NormalizeRoleName role;
                  nu_IsLast := false |}).
    assert (H0 : In e0 (omap (entry (build_roleMap roles)) users)).
    { apply list_elem_of_In, list_elem_of_omap. exists (set_Active u b).
      split; [now apply list_elem_of_In|]. unfold entry. simpl. now rewrite E. }
    assert (H1 : In e0 (sort_Slice less_user (omap (entry (build_roleMap roles)) users))).
    { eapply Permutation_in; [symmetry; apply sort_Slice_Permutation|exact H0]. }
    rewrite configData_eq. simpl. unfold canonical_users.
    apply list_elem_of_In in H1.
    apply list_elem_of_lookup_1 in H1. destruct H1 as [i Hi].
    destruct (Forall2_lookup_l _ _ _ _ _ (update_IsLast_is_alike _) Hi)
      as (e & He & Hu & Hp & Hn).
    exists e, role. split; [eapply list_elem_of_In, list_elem_of_lookup_2, He|].
    simpl in Hu, Hp, Hn. now rewrite <- Hu, <- Hp, <- Hn.
Qed.

(** *** Determinism when no two sort keys tie *)

Lemma NoDup_map_eq {B C : Type} (f : B -> C) l x y :
  NoDup (map f l) -> In x l -> In y l -> f x = f y -> x = y.
Proof.
  induction l as [|a l IH]; intros Hnd Hx Hy E; [destruct Hx|].
  simpl in Hnd. apply NoDup_cons in Hnd. destruct Hnd as [Ha Hnd].
  destruct Hx as [->|Hx], Hy as [->|Hy]; [reflexivity| | |now apply IH].
  - exfalso. apply Ha. rewrite E. now apply list_elem_of_In, in_map.
  - exfalso. apply Ha. rewrite <- E. now apply list_elem_of_In, in_map.
Qed.

Lemma build_roleMap_In roles r :
  NoDup (map role_ID roles) -> In r roles ->
  build_roleMap roles !! role_ID r = Some r.
Proof.
  intros Hnd Hr. destruct (build_roleMap roles !! role_ID r) as [r'|] eqn:E.
  - apply build_roleMap_Some in E. destruct E as [Hr' Hid].
    f_equal. now apply (NoDup_map_eq role_ID roles).
  - apply build_roleMap_None in E. exfalso. apply E. now apply in_map.
Qed.

Lemma build_roleMap_Permutation roles roles' k :
  NoDup (map role_ID roles) -> Permutation roles roles' ->
  build_roleMap roles !! k = build_roleMap roles' !! k.
Proof.
  intros Hnd Hp.
  assert (Hnd' : NoDup (map role_ID roles')) by now rewrite <- Hp.
  destruct (build_roleMap roles !! k) as [r|] eqn:E.
  - apply build_roleMap_Some in E. destruct E as [Hr <-].
    symmetry. apply build_roleMap_In; [assumption|].
    now apply (Permutation_in _ Hp).
  - symmetry. apply build_roleMap_None. apply build_roleMap_None in E.
    intros H. apply E. revert H. apply Permutation_in. now rewrite Hp.
Qed.

Lemma map_bytes_app f a b : map_bytes f (a ++ b) = map_bytes f a ++ map_bytes f b.
Proof. induction a as [|c a IH]; simpl; [reflexivity|now rewrite IH]. Qed.

Lemma append_byte_inj a b c :
  a ++ String c EmptyString = b ++ String c EmptyString -> a = b.
Proof.
  revert b. induction a as [|x a IH]; intros [|y b] H; simpl in H.
  - reflexivity.
  - injection H as _ H. destruct b; discriminate H.
  - injection H as _ H. destruct a; discriminate H.
  - injection H as -> H. f_equal. now apply IH.
Qed.

Lemma quoted_lower_inj a b :
  strings_ToLower (dq ++ a ++ dq) = strings_ToLower (dq ++ b ++ dq) ->
  strings_ToLower a = strings_ToLower b.
Proof.
  unfold strings_ToLower. rewrite !map_bytes_app. simpl.
  intros H. injection H as H. now apply append_byte_inj in H.
Qed.

Lemma entry_keys_NoDup roleMap users :
  NoDup (map (fun u => strings_ToLower (Username u)) users) ->
  NoDup (map (fun e => strings_ToLower (nu_Username e)) (omap (entry roleMap) users)).
Proof.
  induction users as [|u users IH]; intros Hnd; simpl; [constructor|].
  simpl in Hnd. apply NoDup_cons in Hnd. destruct Hnd as [Hu Hnd].
  destruct (entry roleMap u) as [e|] eqn:E; [|now apply IH].
  simpl. apply NoDup_cons. split; [|now apply IH].
  intros Hin. apply Hu.
  apply list_elem_of_fmap in Hin. destruct Hin as (e' & Hk & He').
  apply list_elem_of_omap in He'. destruct He' as (u' & Hu' & Eu').
  apply list_elem_of_fmap. exists u'. split; [|assumption].
  unfold entry in E, Eu'.
  destruct (roleMap !! RoleID u); [|discriminate].
  destruct (roleMap !! RoleID u'); [|discriminate].
  injection E as <-. injection Eu' as <-. simpl in Hk.
  now apply quoted_lower_inj.
Qed.

(** When role identifiers, normalised role names and lower-cased user
    names are pairwise distinct, the template data and the result of
    [GenerateConfig] are the same for every order of the roles and of the
    users. *)
Theorem GenerateConfig_deterministic_without_ties g roles roles' users users' :
  Permutation roles roles' -> Permutation users users' ->
  NoDup (map role_ID roles) ->
  NoDup (map NormalizeRoleName roles) ->
  NoDup (map (fun u => strings_ToLower (Username u)) users) ->
  configData g roles users = configData g roles' users' /\
  GenerateConfig g roles users = GenerateConfig g roles' users'.
Proof.
  intros Hr Hu Hid Hname Huser.
  assert (E : configData g roles users = configData g roles' users').
  { rewrite !configData_eq. f_equal.
    - apply (sort_Slice_of_Permutation nr_Name).
      + rewrite map_map. exact Hname.
      + now apply Permutation_map.
    - unfold canonical_users. f_equal.
      assert (Em : omap (entry (build_roleMap roles')) users'
                   = omap (entry (build_roleMap roles)) users').
      { assert (Ee : forall u, entry (build_roleMap roles') u
                                 = entry (build_roleMap roles) u).
        { intros u. unfold entry.
          now rewrite <- (build_roleMap_Permutation roles roles' _ Hid Hr). }
        clear Hu. induction users' as [|u us IH]; simpl; [reflexivity|].
        rewrite Ee. destruct (entry (build_roleMap roles) u); [f_equal|]; exact IH. }
      rewrite Em.
      apply (sort_Slice_of_Permutation (fun e => strings_ToLower (nu_Username e))).
      + now apply entry_keys_NoDup.
      + now rewrite Hu. }
  split; [exact E|]. now apply GenerateConfig_eq.
Qed.

End GeneratorFacts.

(** *** The generator on concrete data *)

Example scenario_of_the_specification :
  example.GenerateConfig example.g [example.admin_panel] [example.Bob; example.alice]
  = Ok (String.concat example.nl
      ["default_permissions = { publish = " ++ dq ++ "_INBOX.>" ++ dq
         ++ ", subscribe = " ++ dq ++ "_INBOX.>" ++ dq ++ " }";
       "ADMIN_PANEL = { publish = [" ++ dq ++ "a/b" ++ dq ++ ", " ++ dq ++ "a/c" ++ dq
         ++ "], subscribe = " ++ dq ++ dq ++ " }";
       "users = [";
       "{ user: " ++ dq ++ "Bob" ++ dq ++ ", password: " ++ dq ++ "pw1" ++ dq
         ++ ", permissions: $ADMIN_PANEL }";
       "]"; EmptyString]).
Proof. vm_compute. reflexivity. Qed.

(** The scenario of the specification has no ties: its two users can be
    given in either order. *)
Example scenario_in_either_order :
  example.GenerateConfig example.g [example.admin_panel] [example.Bob; example.alice]
  = example.GenerateConfig example.g [example.admin_panel] [example.alice; example.Bob].
Proof.
  apply GenerateConfig_deterministic_without_ties.
  - reflexivity.
  - apply perm_swap.
  - repeat constructor; set_solver.
  - repeat constructor; set_solver.
  - vm_compute. repeat constructor; rewrite ?elem_of_cons, ?elem_of_nil.
    + intros [H|[]]. discriminate H.
    + intros [].
Qed.

(** C1 on an input with ties.  [Bob] and [bob] are two accounts whose
    names have the same lower-case form, [admin] and [Admin] two roles
    whose names normalise alike: such entries come out in the order of the
    input, and the two orders of the same records give two different
    texts. *)
Theorem C1_ties_follow_input_order :
  Permutation [example.Bob; example.bob] [example.bob; example.Bob] /\
  map models.nu_Username
    (models.Users (example.configData example.g [example.admin_panel]
                     [example.Bob; example.bob]))
  = [dq ++ "Bob" ++ dq; dq ++ "bob" ++ dq] /\
  map models.nu_Username
    (models.Users (example.configData example.g [example.admin_panel]
                     [example.bob; example.Bob]))
  = [dq ++ "bob" ++ dq; dq ++ "Bob" ++ dq] /\
  example.GenerateConfig example.g [example.admin_panel] [example.Bob; example.bob]
  <> example.GenerateConfig example.g [example.admin_panel] [example.bob; example.Bob] /\
  Permutation [example.admin_lower; example.admin_upper]
              [example.admin_upper; example.admin_lower] /\
  map models.nr_PublishPermissions
    (models.Roles (example.configData example.g
                     [example.admin_lower; example.admin_upper] []))
  = [dq ++ "x" ++ dq; dq ++ "y" ++ dq] /\
  map models.nr_PublishPermissions
    (models.Roles (example.configData example.g
                     [example.admin_upper; example.admin_lower] []))
  = [dq ++ "y" ++ dq; dq ++ "x" ++ dq] /\
  example.GenerateConfig example.g [example.admin_lower; example.admin_upper] []
  <> example.GenerateConfig example.g [example.admin_upper; example.admin_lower] [].
Proof.
  split; [apply perm_swap|]. split; [vm_compute; reflexivity|].
  split; [vm_compute; reflexivity|]. split; [vm_compute; discriminate|].
  split; [apply perm_swap|]. split; [vm_compute; reflexivity|].
  split; [vm_compute; reflexivity|]. vm_compute; discriminate.
Qed.

Lemma C7_witness :
  ~ In (models.RoleID example.alice) (map models.role_ID [example.admin_panel]) /\
  example.GenerateConfig example.g [example.admin_panel] ([example.Bob] ++ example.alice :: [example.bob])
  = example.GenerateConfig example.g [example.admin_panel] ([example.Bob] ++ [example.bob]).
Proof.
  assert (H : ~ In (models.RoleID example.alice) (map models.role_ID [example.admin_panel])).
  { simpl. intros [H|[]]. discriminate H. }
  split; [exact H|].
  exact (proj2 (C7_dangling_user_excluded jsonfrag.Unmarshal string
                  example.FormatDefaultPermissions example.FormatConfigFile
                  example.g [example.admin_panel] [example.Bob] example.alice
                  [example.bob] H)).
Defined.

Lemma C9_witness :
  is_err (jsonfrag.Unmarshal (models.PublishPermissions example.broken)) = true /\
  models.FormatPublishPermissions jsonfrag.Unmarshal example.broken = dq ++ dq.
Proof.
  assert (H : is_err (jsonfrag.Unmarshal (models.PublishPermissions example.broken)) = true)
    by reflexivity.
  split; [exact H|].
  exact (proj1 (C9_malformed_permissions_degrade jsonfrag.Unmarshal string
                  example.FormatDefaultPermissions example.FormatConfigFile
                  example.broken) H).
Defined.

Lemma C10_witness :
  In (generator.set_Active example.Bob false) [generator.set_Active example.Bob false] /\
  In (models.RoleID example.Bob) (map models.role_ID [example.admin_panel]) /\
  exists e role,
    In e (models.Users (example.configData example.g [example.admin_panel]
                          [generator.set_Active example.Bob false])) /\
    In role [example.admin_panel] /\ models.role_ID role = models.RoleID example.Bob /\
    models.nu_Username e = dq ++ models.Username example.Bob ++ dq /\
    models.nu_Password e = models.Password example.Bob /\
    models.nu_RoleName e = models.NormalizeRoleName role.
Proof.
  assert (H1 : In (generator.set_Active example.Bob false)
                 [generator.set_Active example.Bob false]) by (left; reflexivity).
  assert (H2 : In (models.RoleID example.Bob) (map models.role_ID [example.admin_panel]))
    by (left; reflexivity).
  split; [exact H1|]. split; [exact H2|].
  exact (proj2 (C10_active_flag_ignored jsonfrag.Unmarshal string
                  example.FormatDefaultPermissions example.FormatConfigFile
                  example.g [example.admin_panel]
                  [generator.set_Active example.Bob false] (fun _ => true))
               example.Bob false H1 H2).
Defined.

(** ** The change detector *)

Section ChangeDetector.
Import filemanager.

Lemma eqb_hash_false (a b : string) : a <> b -> String.eqb a b = false.
Proof. intros H. now apply String.eqb_neq. Qed.

(** A call that is answered from the cache. *)
Lemma HasConfigChanged_cached flt fs fm content :
  lastContentHash fm = calculateHash content ->
  HasConfigChanged flt fs fm content = (fm, Ok false).
Proof.
  intros H. unfold HasConfigChanged. rewrite H, String.eqb_refl. reflexivity.
Qed.

(** C5, as the code has it.  A call that returns without error leaves the
    fingerprint of the candidate in the cache, so that the next call with
    the same candidate answers [changed = false] from the cache, whatever
    the file system holds; a call that returns an error leaves the cache as
    it was. *)
Theorem C5_cache_updated_unless_error flt fs fm content :
  (is_err (snd (HasConfigChanged flt fs fm content)) = false ->
   lastContentHash (fst (HasConfigChanged flt fs fm content)) = calculateHash content /\
   forall flt' fs',
     HasConfigChanged flt' fs' (fst (HasConfigChanged flt fs fm content)) content
     = (fst (HasConfigChanged flt fs fm content), Ok false)) /\
  (is_err (snd (HasConfigChanged flt fs fm content)) = true ->
   fst (HasConfigChanged flt fs fm content) = fm).
Proof.
  assert (G : is_err (snd (HasConfigChanged flt fs fm content)) = false ->
              lastContentHash (fst (HasConfigChanged flt fs fm content))
              = calculateHash content).
  { unfold HasConfigChanged.
    destruct (String.eqb (calculateHash content) (lastContentHash fm)) eqn:E.
    - intros _. simpl. symmetry. now apply String.eqb_eq.
    - destruct (os_Stat _ fs _) as [size| |e]; simpl; [|reflexivity|discriminate].
      destruct (size =? 0)%Z; simpl; [reflexivity|].
      destruct (os_ReadFile _ fs _); simpl; [reflexivity|discriminate]. }
  split.
  - intros H. split; [now apply G|].
    intros flt' fs'. apply HasConfigChanged_cached. now apply G.
  - unfold HasConfigChanged.
    destruct (String.eqb (calculateHash content) (lastContentHash fm)); [reflexivity|].
    destruct (os_Stat _ fs _) as [size| |e]; simpl; [|discriminate|reflexivity].
    destruct (size =? 0)%Z; simpl; [discriminate|].
    destruct (os_ReadFile _ fs _); simpl; [discriminate|reflexivity].
Qed.

(** C6. With a candidate whose fingerprint is not the cached one: a
    missing file and an empty file both give [changed = true] without
    error, and an error of [os.Stat] or of [os.ReadFile] is returned. *)
Theorem C6_missing_or_empty_file_is_a_change flt fs fm content :
  calculateHash content <> lastContentHash fm ->
  (stat_fault flt = None -> fs !! configFile fm = None ->
   snd (HasConfigChanged flt fs fm content) = Ok true) /\
  (forall c, stat_fault flt = None -> fs !! configFile fm = Some c ->
   String.length c = 0%nat ->
   snd (HasConfigChanged flt fs fm content) = Ok true) /\
  (forall e, stat_fault flt = Some e ->
   snd (HasConfigChanged flt fs fm content)
   = Err ("failed to stat config file: " ++ e)) /\
  (forall c e, stat_fault flt = None -> fs !! configFile fm = Some c ->
   String.length c <> 0%nat -> read_fault flt = Some e ->
   snd (HasConfigChanged flt fs fm content)
   = Err ("failed to read current config file: " ++ e)).
Proof.
  intros Hne. apply eqb_hash_false in Hne.
  unfold HasConfigChanged, os_Stat, os_ReadFile. rewrite Hne.
  repeat split.
  - intros -> ->. reflexivity.
  - intros c -> -> ->. reflexivity.
  - intros e ->. reflexivity.
  - intros c e -> -> Hlen ->.
    destruct (Z.eqb_spec (Z.of_nat (String.length c)) 0) as [H0|_]; [lia|reflexivity].
Qed.

End ChangeDetector.

Lemma C5_witness :
  is_err (snd (filemanager.HasConfigChanged
                 {| filemanager.stat_fault := None; filemanager.read_fault := None |}
                 ∅ (filemanager.NewFileManager "nats.conf" "backups") "users = []"))
  = false /\
  filemanager.HasConfigChanged
    {| filemanager.stat_fault := None; filemanager.read_fault := None |} ∅
    (fst (filemanager.HasConfigChanged
            {| filemanager.stat_fault := None; filemanager.read_fault := None |}
            ∅ (filemanager.NewFileManager "nats.conf" "backups") "users = []"))
    "users = []"
  = (fst (filemanager.HasConfigChanged
            {| filemanager.stat_fault := None; filemanager.read_fault := None |}
            ∅ (filemanager.NewFileManager "nats.conf" "backups") "users = []"),
     Ok false).
Proof.
  assert (H : is_err (snd (filemanager.HasConfigChanged
                 {| filemanager.stat_fault := None; filemanager.read_fault := None |}
                 ∅ (filemanager.NewFileManager "nats.conf" "backups") "users = []"))
              = false) by (vm_compute; reflexivity).
  split; [exact H|].
  exact (proj2 (proj1 (C5_cache_updated_unless_error _ _ _ _) H) _ _).
Defined.

(** The claim of C5 fails on an error: [os.Stat] is refused, the call
    returns the error and the cache still holds the old fingerprint.  The
    same candidate checked again, the file system being the same, is not
    answered from the cache: [os.Stat] is called again, and the answer is
    the error once more or, when the call goes through, [changed = true]
    for the missing file. *)
Lemma C5_counterexample :
  let fm := filemanager.NewFileManager "nats.conf" "backups" in
  let denied := {| filemanager.stat_fault := Some "permission denied";
                   filemanager.read_fault := None |} in
  let sound := {| filemanager.stat_fault := None; filemanager.read_fault := None |} in
  let first := filemanager.HasConfigChanged denied ∅ fm "users = []" in
  is_err (snd first) = true /\
  filemanager.lastContentHash (fst first) <> filemanager.calculateHash "users = []" /\
  snd (filemanager.HasConfigChanged denied ∅ (fst first) "users = []") <> Ok false /\
  snd (filemanager.HasConfigChanged sound ∅ (fst first) "users = []") = Ok true.
Proof.
  vm_compute. split; [reflexivity|]. split; [discriminate|].
  split; [discriminate|reflexivity].
Qed.

Lemma C6_witness :
  filemanager.calculateHash "users = []"
  <> filemanager.lastContentHash (filemanager.NewFileManager "nats.conf" "backups") /\
  snd (filemanager.HasConfigChanged
         {| filemanager.stat_fault := None; filemanager.read_fault := None |}
         ∅ (filemanager.NewFileManager "nats.conf" "backups") "users = []")
  = Ok true.
Proof.
  assert (H : filemanager.calculateHash "users = []"
              <> filemanager.lastContentHash
                   (filemanager.NewFileManager "nats.conf" "backups"))
    by (vm_compute; discriminate).
  split; [exact H|].
  exact (proj1 (C6_missing_or_empty_file_is_a_change
                  {| filemanager.stat_fault := None; filemanager.read_fault := None |}
                  ∅ (filemanager.NewFileManager "nats.conf" "backups")
                  "users = []" H) eq_refl (lookup_empty _)).
Defined.

(** ** The publisher *)

Lemma last_byte_app (s t : string) :
  t <> EmptyString -> last_byte (s ++ t) = last_byte t.
Proof.
  intros Ht. induction s as [|c s IH]; [reflexivity|].
  simpl. rewrite IH. destruct (s ++ t) eqn:E; [|reflexivity].
  destruct s; simpl in E; [contradiction|discriminate].
Qed.

Section Publisher.
Import filemanager.

(** A backup ends in [.conf] and a temporary file in [.tmp]. *)
Lemma backup_is_not_temp fm ts r :
  backupFilename_of fm ts <> tempFilePath_of fm r.
Proof.
  intros H. apply (f_equal last_byte) in H. revert H.
  unfold backupFilename_of, tempFilePath_of, filepath.Join.
  change (String filepath.sep ("nats-config-" ++ ts ++ ".conf"))
    with (String filepath.sep "nats-config-" ++ (ts ++ ".conf")).
  change (String filepath.sep ("nats-config-" ++ r ++ ".tmp"))
    with (String filepath.sep "nats-config-" ++ (r ++ ".tmp")).
  assert (N : forall x y, y <> EmptyString -> x ++ y <> EmptyString).
  { intros [|c x] y Hy; simpl; [assumption|discriminate]. }
  rewrite !last_byte_app; try (repeat apply N); discriminate.
Qed.

(** [backupCurrentConfig] writes to the backup file only. *)
Lemma backupCurrentConfig_other flt fm fs p :
  p <> backupFilename_of fm (timestamp flt) ->
  fst (backupCurrentConfig flt fm fs) !! p = fs !! p.
Proof.
  intros Hp. unfold backupCurrentConfig.
  fold (backupFilename_of fm (timestamp flt)).
  assert (G : fst (match mkdir_fault flt with
                   | Some e => (fs, Err ("failed to create backup directory: " ++ e))
                   | None =>
                     match os_ReadFile (open_fault flt) fs (configFile fm) with
                     | Err e => (fs, Err ("failed to open source file: " ++ e))
                     | Ok _ =>
                       match create_fault flt with
                       | Some e => (fs, Err ("failed to create backup file: " ++ e))
                       | None =>
                         let fs1 := <[backupFilename_of fm (timestamp flt) := EmptyString]> fs in
                         let src := default EmptyString (fs1 !! configFile fm) in
                         match copy_fault flt with
                         | Some (n, e) =>
                           (<[backupFilename_of fm (timestamp flt) := String.substring 0 n src]> fs1,
                            Err ("failed to copy file contents: " ++ e))
                         | None => (<[backupFilename_of fm (timestamp flt) := src]> fs1, Ok tt)
                         end
                       end
                     end
                   end : gmap string string * result unit) !! p = fs !! p).
  { destruct (mkdir_fault flt); [reflexivity|].
    destruct (os_ReadFile _ fs _); [|reflexivity].
    destruct (create_fault flt); [reflexivity|].
    destruct (copy_fault flt) as [[n e]|]; simpl;
      rewrite !lookup_insert_ne by congruence; reflexivity. }
  destruct (os_Stat _ fs _); [exact G|reflexivity|exact G].
Qed.

(** C2. When the temporary file cannot be created, written or closed,
    [WriteConfigFile] returns an error and the file system is what it was
    before the call: the artifact is untouched and no temporary file is
    left.  When these three steps and the rename succeed, the call returns
    no error and the artifact holds the new content, whatever happens to
    the backup. *)
Theorem C2_publish_is_atomic flt fm fs content :
  (fails_before_rename flt fm fs ->
   is_err (snd (WriteConfigFile flt fm fs content)) = true /\
   fst (WriteConfigFile flt fm fs content) = fs) /\
  (forall r,
     temp_rand flt = Ok r -> fs !! tempFilePath_of fm r = None ->
     write_fault flt = None -> close_fault flt = None ->
     rename_fault flt = None -> tempFilePath_of fm r <> configFile fm ->
     snd (WriteConfigFile flt fm fs content) = Ok tt /\
     fst (WriteConfigFile flt fm fs content) !! configFile fm = Some content /\
     fst (WriteConfigFile flt fm fs content) !! tempFilePath_of fm r = None).
Proof.
  unfold fails_before_rename, WriteConfigFile. split.
  - destruct (temp_rand flt) as [r|e]; [|intros _; split; reflexivity].
    fold (tempFilePath_of fm r). set (T := tempFilePath_of fm r).
    destruct (fs !! T) eqn:ET; [intros _; split; reflexivity|].
    intros [H|[H|H]]; [congruence| |].
    + destruct (write_fault flt) as [[n e]|]; [|congruence]. simpl. split; [reflexivity|].
      unfold cleanup_temp, os_Stat. rewrite lookup_insert_eq, insert_insert_eq.
      now apply delete_insert_id.
    + destruct (write_fault flt) as [[n e]|]; simpl.
      * split; [reflexivity|].
        unfold cleanup_temp, os_Stat. rewrite lookup_insert_eq, insert_insert_eq.
        now apply delete_insert_id.
      * destruct (close_fault flt); [|congruence]. simpl. split; [reflexivity|].
        unfold cleanup_temp, os_Stat. rewrite lookup_insert_eq, insert_insert_eq.
        now apply delete_insert_id.
  - intros r -> ET -> -> -> Hne.
    fold (tempFilePath_of fm r). set (T := tempFilePath_of fm r) in *.
    rewrite ET. unfold os_Rename.
    rewrite backupCurrentConfig_other
      by (intros E; symmetry in E; revert E; apply backup_is_not_temp).
    rewrite lookup_insert_eq. simpl.
    unfold cleanup_temp, os_Stat.
    rewrite lookup_insert_ne, lookup_delete_eq by congruence.
    rewrite lookup_insert_eq, lookup_insert_ne, lookup_delete_eq by congruence.
    repeat split.
Qed.

End Publisher.

Example backup_step_fails :
  is_err (snd (filemanager.backupCurrentConfig
                 (filemanager.backup_flt example_fs.backup_fails)
                 example_fs.fm example_fs.fs)) = true.
Proof. vm_compute. reflexivity. Qed.

Lemma C2_witness :
  (filemanager.fails_before_rename example_fs.disk_full example_fs.fm example_fs.fs /\
   fst (filemanager.WriteConfigFile example_fs.disk_full example_fs.fm example_fs.fs
          "users = [ bob ]") = example_fs.fs) /\
  (filemanager.temp_rand example_fs.backup_fails = Ok "1234567" /\
   example_fs.fs !! filemanager.tempFilePath_of example_fs.fm "1234567" = None /\
   filemanager.write_fault example_fs.backup_fails = None /\
   filemanager.close_fault example_fs.backup_fails = None /\
   filemanager.rename_fault example_fs.backup_fails = None /\
   filemanager.tempFilePath_of example_fs.fm "1234567"
     <> filemanager.configFile example_fs.fm /\
   snd (filemanager.WriteConfigFile example_fs.backup_fails example_fs.fm example_fs.fs
          "users = [ bob ]") = Ok tt).
Proof.
  assert (H1 : filemanager.fails_before_rename example_fs.disk_full example_fs.fm
                 example_fs.fs).
  { right. left. discriminate. }
  assert (H2 : example_fs.fs !! filemanager.tempFilePath_of example_fs.fm "1234567" = None)
    by reflexivity.
  assert (H3 : filemanager.tempFilePath_of example_fs.fm "1234567"
               <> filemanager.configFile example_fs.fm) by discriminate.
  split.
  - split; [exact H1|].
    exact (proj2 (proj1 (C2_publish_is_atomic example_fs.disk_full example_fs.fm
                           example_fs.fs "users = [ bob ]") H1)).
  - repeat (split; [first [reflexivity | exact H2 | exact H3]|]).
    exact (proj1 (proj2 (C2_publish_is_atomic example_fs.backup_fails example_fs.fm
                           example_fs.fs "users = [ bob ]")
                   "1234567" eq_refl H2 eq_refl eq_refl eq_refl H3)).
Defined.

(** ** The sweeper *)

Section Sweeper.
Import filemanager.

Local Open Scope Z_scope.

(** [Time.Sub] against plain subtraction: the comparison of the sweep is
    exact for every retention but the largest duration. *)
Lemma Sub_gt_iff now modTime maxAge :
  gotime.minDuration <= maxAge < gotime.maxDuration ->
  (maxAge <? gotime.Sub now modTime) = true <-> modTime < now - maxAge.
Proof.
  intros H. unfold gotime.Sub, gotime.minDuration, gotime.maxDuration in *.
  rewrite Z.ltb_lt.
  repeat match goal with
         | |- context [if ?a <? ?b then _ else _] => destruct (Z.ltb_spec a b)
         end; lia.
Qed.

Lemma sweep_entry_eq now maxAge dir file :
  sweep_entry now maxAge dir file =
  if swept now maxAge (snd file) then delete (fst file) dir else dir.
Proof.
  unfold sweep_entry, swept. destruct (de_IsDir (snd file)); [reflexivity|].
  destruct (de_Info (snd file)) as [m|]; [|reflexivity]. simpl.
  destruct (maxAge <? gotime.Sub now m); [|reflexivity].
  destruct (de_remove_fault (snd file)); reflexivity.
Qed.

Lemma sweep_absent now maxAge l (m : gmap string DirEntry) k :
  m !! k = None -> fold_left (sweep_entry now maxAge) l m !! k = None.
Proof.
  revert m. induction l as [|f l IH]; intros m H; simpl; [assumption|].
  apply IH. rewrite sweep_entry_eq. destruct (swept now maxAge (snd f)); [|assumption].
  destruct (decide (fst f = k)) as [->|Hne]; [apply lookup_delete_eq|].
  now rewrite lookup_delete_ne.
Qed.

Lemma sweep_removed now maxAge l (m : gmap string DirEntry) k e :
  In (k, e) l -> swept now maxAge e = true ->
  fold_left (sweep_entry now maxAge) l m !! k = None.
Proof.
  revert m. induction l as [|f l IH]; intros m Hin Hs; simpl; [destruct Hin|].
  destruct Hin as [->|Hin]; [|now apply IH].
  apply sweep_absent. rewrite sweep_entry_eq. simpl. rewrite Hs.
  apply lookup_delete_eq.
Qed.

Lemma sweep_kept now maxAge l (m : gmap string DirEntry) k :
  (forall e, In (k, e) l -> swept now maxAge e = false) ->
  fold_left (sweep_entry now maxAge) l m !! k = m !! k.
Proof.
  revert m. induction l as [|f l IH]; intros m H; simpl; [reflexivity|].
  rewrite IH by (intros e He; apply H; now right).
  rewrite sweep_entry_eq. destruct (swept now maxAge (snd f)) eqn:E; [|reflexivity].
  destruct (decide (fst f = k)) as [Hk|Hne]; [|now rewrite lookup_delete_ne].
  destruct f as [k' e]. simpl in *. subst k'.
  rewrite (H e) in E by now left. discriminate.
Qed.

(** C8. The sweep answers no error when the backup directory is missing
    and leaves it missing.  When the directory can be listed the sweep
    answers no error and the directory then holds the entries that are not
    swept: an entry goes exactly when it is not a directory, is older than
    [maxAge] and can be removed, whatever happens to the other entries.
    An error of [os.ReadDir] other than a missing directory is returned,
    the directory untouched. *)
Theorem C8_sweep_removes_the_old_files now maxAge :
  CleanupOldBackups None now maxAge None = (None, Ok tt) /\
  (forall entries,
     CleanupOldBackups None now maxAge (Some entries)
     = (Some (filter (kept now maxAge) entries), Ok tt)) /\
  (forall e dir,
     CleanupOldBackups (Some e) now maxAge dir
     = (dir, Err ("failed to read backup directory: " ++ e)%string)).
Proof.
  split; [reflexivity|]. split; [|reflexivity].
  intros entries. unfold CleanupOldBackups. do 2 f_equal.
  apply map_eq. intros k.
  destruct (entries !! k) as [e|] eqn:Ek.
  - destruct (swept now maxAge e) eqn:Es.
    + rewrite (sweep_removed now maxAge _ _ k e);
        [|apply list_elem_of_In, elem_of_map_to_list; assumption|assumption].
      symmetry. apply map_lookup_filter_None. right. intros e' He'.
      unfold kept. simpl. congruence.
    + rewrite sweep_kept.
      * rewrite Ek. symmetry. apply map_lookup_filter_Some. split; [assumption|exact Es].
      * intros e' He'. apply list_elem_of_In, elem_of_map_to_list in He'. congruence.
  - rewrite sweep_absent by assumption.
    symmetry. apply map_lookup_filter_None. now left.
Qed.

End Sweeper.

(** Of five entries the sweep removes the one that is 60 days old; it
    keeps the file it cannot remove, the file that is exactly 30 days old,
    the recent file and the directory. *)
Example sweep_of_a_directory :
  fst (filemanager.CleanupOldBackups None example_dir.now (example_dir.days 30)
         (Some example_dir.backups))
  = Some (delete "nats-config-20240101-000000.conf" example_dir.backups).
Proof. vm_compute. reflexivity. Qed.

(** ** The reloader *)

Section Reloader.
Import nats.

Local Open Scope Z_scope.

Lemma Since_small now t bound :
  t <= now -> now - t < bound -> (gotime.Since now t <? bound) = true.
Proof.
  intros H1 H2. unfold gotime.Since, gotime.Sub, gotime.minDuration, gotime.maxDuration.
  apply Z.ltb_lt.
  repeat match goal with
         | |- context [if ?a <? ?b then _ else _] => destruct (Z.ltb_spec a b)
         end; lia.
Qed.

(** The time stamp moves only when the command has run with success, and
    then to the reading of the clock taken after the run. *)
Lemma ReloadConfig_lastReload run now done r :
  lastReload (reloader_of (ReloadConfig run now done r)) = lastReload r \/
  (error_of (ReloadConfig run now done r) = Ok tt /\
   length (executed_of (ReloadConfig run now done r)) = 1%nat /\
   lastReload (reloader_of (ReloadConfig run now done r)) = done).
Proof.
  unfold ReloadConfig.
  destruct (gotime.Since now (lastReload r) <? minInterval r); [now left|].
  destruct (strings_Fields (reloadCommand r)) as [|name args]; [now left|].
  destruct (run _) as [output [err|]]; [now left|]. right. repeat split.
Qed.

Lemma ReloadConfig_minInterval run now done r :
  minInterval (reloader_of (ReloadConfig run now done r)) = minInterval r.
Proof.
  unfold ReloadConfig.
  destruct (gotime.Since now (lastReload r) <? minInterval r); [reflexivity|].
  destruct (strings_Fields (reloadCommand r)) as [|name args]; [reflexivity|].
  destruct (run _) as [output [err|]]; reflexivity.
Qed.

(** C3, as the code has it.  When a first call has run the command with
    success, a second call that comes less than the minimum interval after
    the first returns success and runs nothing, so that the command has run
    exactly once; and a call moves the time stamp only when its command has
    succeeded. *)
Theorem C3_debounce_after_success run run' now1 done1 now2 done2 r :
  (error_of (ReloadConfig run now1 done1 r) = Ok tt ->
   executed_of (ReloadConfig run now1 done1 r) <> [] ->
   now1 <= done1 <= now2 -> now2 - now1 < minInterval r ->
   ReloadConfig run' now2 done2 (reloader_of (ReloadConfig run now1 done1 r))
   = (reloader_of (ReloadConfig run now1 done1 r), Ok tt, []) /\
   length (executed_of (ReloadConfig run now1 done1 r)
           ++ executed_of (ReloadConfig run' now2 done2
                             (reloader_of (ReloadConfig run now1 done1 r)))) = 1%nat) /\
  (lastReload (reloader_of (ReloadConfig run now1 done1 r)) = lastReload r \/
   (error_of (ReloadConfig run now1 done1 r) = Ok tt /\
    lastReload (reloader_of (ReloadConfig run now1 done1 r)) = done1)).
Proof.
  split.
  - intros Hok Hex Ht Hint.
    assert (E : exists cmd,
               ReloadConfig run now1 done1 r = (set_lastReload r done1, Ok tt, [cmd])).
    { revert Hok Hex. unfold ReloadConfig.
      destruct (gotime.Since now1 (lastReload r) <? minInterval r);
        [intros _ H; now contradiction H|].
      destruct (strings_Fields (reloadCommand r)) as [|name args];
        [intros _ H; now contradiction H|].
      destruct (run _) as [output [err|]]; [discriminate|]. intros _ _. eauto. }
    destruct E as [cmd E]. rewrite E. unfold reloader_of, executed_of. simpl.
    assert (S2 : ReloadConfig run' now2 done2 (set_lastReload r done1)
                 = (set_lastReload r done1, Ok tt, [])).
    { unfold ReloadConfig. simpl. rewrite Since_small by lia. reflexivity. }
    rewrite S2. split; reflexivity.
  - destruct (ReloadConfig_lastReload run now1 done1 r) as [H|(H1 & _ & H2)];
      [now left|now right].
Qed.

End Reloader.

Lemma C3_witness :
  let r := nats.NewReloader "nats-server --signal reload" in
  let first := nats.ReloadConfig nats.run_succeeds 1709251200000000000 1709251200200000000 r in
  nats.error_of first = Ok tt /\
  nats.executed_of first <> [] /\
  (1709251200000000000 <= 1709251200200000000 <= 1709251203000000000)%Z /\
  (1709251203000000000 - 1709251200000000000 < nats.minInterval r)%Z /\
  nats.ReloadConfig nats.run_fails 1709251203000000000 1709251203100000000
    (nats.reloader_of first)
  = (nats.reloader_of first, Ok tt, []).
Proof.
  cbv zeta.
  assert (H1 : nats.error_of
                 (nats.ReloadConfig nats.run_succeeds 1709251200000000000
                    1709251200200000000 (nats.NewReloader "nats-server --signal reload"))
               = Ok tt) by reflexivity.
  assert (H2 : nats.executed_of
                 (nats.ReloadConfig nats.run_succeeds 1709251200000000000
                    1709251200200000000 (nats.NewReloader "nats-server --signal reload"))
               <> []) by discriminate.
  assert (H3 : (1709251200000000000 <= 1709251200200000000 <= 1709251203000000000)%Z)
    by (split; discriminate).
  assert (H4 : (1709251203000000000 - 1709251200000000000
                < nats.minInterval (nats.NewReloader "nats-server --signal reload"))%Z)
    by reflexivity.
  split; [exact H1|]. split; [exact H2|]. split; [exact H3|]. split; [exact H4|].
  exact (proj1 (proj1 (C3_debounce_after_success nats.run_succeeds nats.run_fails
                         1709251200000000000 1709251200200000000
                         1709251203000000000 1709251203100000000
                         (nats.NewReloader "nats-server --signal reload"))
                  H1 H2 H3 H4)).
Defined.

(** The claim of C3 fails when the first command fails: the time stamp
    stays where it was, the call that follows one second later runs the
    command again, and the command has run twice. *)
Lemma C3_counterexample :
  let r := nats.NewReloader "nats-server --signal reload" in
  let first := nats.ReloadConfig nats.run_fails 1709251200000000000 1709251200200000000 r in
  let second := nats.ReloadConfig nats.run_fails 1709251201000000000 1709251201200000000
                  (nats.reloader_of first) in
  (1709251201000000000 - 1709251200000000000 < nats.minInterval r)%Z /\
  length (nats.executed_of first ++ nats.executed_of second) = 2%nat /\
  nats.executed_of second
  = [{| nats.cmdName := "nats-server"; nats.cmdArgs := ["--signal"; "reload"] |}] /\
  is_err (nats.error_of second) = true.
Proof. vm_compute. repeat split. Qed.

(** ** The scheduling loop *)

Section Orchestrator.
Import main.

Variable World : Type.
Variable runSync : World -> World * result unit.
Variable CleanupOldBackups : Z -> World -> World * result unit.

Local Abbreviation main_loop := (main.main_loop World runSync CleanupOldBackups).
Local Abbreviation main := (main.main World runSync CleanupOldBackups).

(** The calls of one pass of the loop. *)
Local Abbreviation cycle :=
  [CallRunSync; CallCleanupOldBackups (30 * 24 * gotime.Hour)%Z].

Lemma calls_app t1 t2 : calls (t1 ++ t2) = (calls t1 ++ calls t2)%list.
Proof. apply List.filter_app. Qed.

Lemma calls_log {A} (r : result A) line :
  is_call line = false -> calls (log_if_err r line) = [].
Proof. intros H. destruct r; simpl; [reflexivity|now rewrite H]. Qed.

Lemma main_loop_calls events w trace :
  calls (trace_of (main_loop events w trace))
  = (calls trace ++ concat (repeat cycle (ticks_before_stop events)))%list.
Proof.
  revert w trace. induction events as [|[|] events IH]; intros w trace.
  - unfold trace_of. simpl. now rewrite app_nil_r.
  - cbn [main.main_loop ticks_before_stop repeat concat].
    destruct (runSync w) as [w1 err]. destruct (CleanupOldBackups _ w1) as [w2 err2].
    rewrite IH, !calls_app.
    rewrite (calls_log err), (calls_log err2) by reflexivity.
    simpl. rewrite <- !app_assoc. reflexivity.
  - unfold trace_of. simpl. rewrite calls_app. simpl. now rewrite app_nil_r.
Qed.

Lemma every_sync_swept_cycles n :
  every_sync_swept (concat (repeat cycle n)) = true.
Proof. induction n as [|n IH]; [reflexivity|]. simpl. exact IH. Qed.

(** C4, as the code has it.  Whatever [runSync] and the sweep do and
    answer, the calls of a run are the initial [runSync], which no sweep
    follows, and then one [runSync] directly followed by the sweep with the
    30 day retention for each tick that arrives before the stop signal: an
    error of either does not end the loop. *)
Theorem C4_sweep_after_each_tick_cycle events w :
  calls (trace_of (main events w))
  = (CallRunSync :: concat (repeat cycle (ticks_before_stop events)))%list /\
  every_sync_swept (tl (calls (trace_of (main events w)))) = true.
Proof.
  assert (E : calls (trace_of (main events w))
              = (CallRunSync :: concat (repeat cycle (ticks_before_stop events)))%list).
  { unfold main.main. destruct (runSync w) as [w1 err].
    rewrite main_loop_calls, !calls_app, (calls_log err) by reflexivity.
    reflexivity. }
  split; [exact E|]. rewrite E. simpl. apply every_sync_swept_cycles.
Qed.

End Orchestrator.

(** The claim of C4 fails on the initial cycle: with a tick and then the
    stop signal the calls are [runSync], [runSync], sweep, and no sweep
    follows the first [runSync]. *)
Lemma C4_counterexample :
  main.calls (main.trace_of
    (main.main unit (fun w => (w, Ok tt)) (fun _ w => (w, Ok tt))
       [main.Tick; main.Stop] tt))
  = [main.CallRunSync; main.CallRunSync;
     main.CallCleanupOldBackups (30 * 24 * gotime.Hour)%Z] /\
  main.every_sync_swept (main.calls (main.trace_of
    (main.main unit (fun w => (w, Ok tt)) (fun _ w => (w, Ok tt))
       [main.Tick; main.Stop] tt))) = false.
Proof. vm_compute. split; reflexivity. Qed.

(** A run of three cycles: the first publishes and reloads, the second
    finds nothing to do, the third fails at the fetch.  The command has
    run once, the artifact holds the generated text, the older artifact
    has been copied to the backup directory, and the sweep has followed
    the two cycles of the ticker; by then the backup of January 31 is
    older than 30 days as well. *)
Example three_cycles :
  let '(w, trace, returned) := example_run.run [main.Tick; main.Tick; main.Stop] in
  trace = [main.CallRunSync;
           main.LogInfo "Entering main loop";
           main.CallRunSync;
           main.CallCleanupOldBackups (30 * 24 * gotime.Hour)%Z;
           main.CallRunSync;
           main.LogError "Sync failed";
           main.CallCleanupOldBackups (30 * 24 * gotime.Hour)%Z;
           main.LogInfo "Shutting down gracefully"] /\
  returned = true /\
  sync.w_executed w
  = [{| nats.cmdName := "nats-server"; nats.cmdArgs := ["--signal"; "reload"] |}] /\
  Ok (default EmptyString (sync.w_fs w !! "/etc/nats/nats.conf"))
  = example.GenerateConfig example.g [example.admin_panel] [example.Bob; example.alice] /\
  sync.w_fs w !! "/var/backups/nats-config-20240102-030405.conf" = Some "users = []" /\
  sync.w_fs w !! "/etc/nats/nats-config-1234567.tmp" = None /\
  sync.w_dir w
  = Some (delete "nats-config-20240131-000000.conf"
            (delete "nats-config-20240101-000000.conf" example_dir.backups)).
Proof. vm_compute. repeat split. Qed.
